(** * uno-cards: a shallow embedding of [main.py]

    The program builds the 108-card deck, maps every card to a themed
    prompt, renders one PNG per card and tiles the PNGs on A4 pages, three
    by three.  This file embeds the parts of [main.py] that carry logic
    (deck builder, theme lookup, border colour parser, file names, the
    export loop and the page composer) and proves the properties stated
    for them.

    Conventions of the embedding:
    - a Python [str] is a [string]; the literals of the program are kept
      as they are written, and the functions that look at single
      characters ([strip], [int], [lower]) read a character as a code
      point below 256;
    - a Python [int] is a [Z];
    - a Python exception is the [Raise] case of [result];
    - the dictionary [COLOR_THEME] is a [gmap] keyed by strings;
    - a Python [float] is kept abstract behind the class [Arith], with two
      instances: exact rationals and IEEE binary64. *)

From Stdlib Require Import ZArith QArith Qfield String Ascii DecimalString.
From Stdlib Require Import Lia ZifyNat Lqa.
From Stdlib Require Import PrimFloat Uint63.
From stdpp Require Import base option list gmap strings.

Local Open Scope string_scope.
Local Open Scope Z_scope.

(** ** Python results and built-ins *)

Module Py.

(** The exceptions the program can meet. *)
Inductive exn : Set :=
| AssertionError
| KeyError
| ValueError
| IndexError
| ZeroDivisionError
| FileNotFoundError
| NameError
| AttributeError
| OverflowError
| ServiceError.

Inductive result (A : Type) : Type :=
| Ok (a : A)
| Raise (e : exn).
Arguments Ok {A} a.
Arguments Raise {A} e.

#[export] Instance result_ret : MRet result := λ A a, Ok a.
#[export] Instance result_bind : MBind result := λ A B f m,
  match m with
  | Ok a => f a
  | Raise e => Raise e
  end.

(** The call ends in an exception. *)
Definition raises {A} (r : result A) : Prop := ∃ e, r = Raise e.

(** [assert b] *)
Definition py_assert (b : bool) : result unit :=
  if b then Ok tt else Raise AssertionError.

(** [try: body except: handler] with a bare [except]. *)
Definition try_except {A} (body : result A) (handler : A) : A :=
  match body with
  | Ok a => a
  | Raise _ => handler
  end.

(** [d[k]] on a dictionary. *)
Definition getitem {V} (d : gmap string V) (k : string) : result V :=
  match d !! k with
  | Some v => Ok v
  | None => Raise KeyError
  end.

(** [l[i]] on a list: a negative index counts from the end. *)
Definition list_getitem {A} (l : list A) (i : Z) : result A :=
  let n := Z.of_nat (length l) in
  let j := if i <? 0 then n + i else i in
  if (j <? 0) || (n <=? j) then Raise IndexError
  else match l !! Z.to_nat j with
       | Some x => Ok x
       | None => Raise IndexError
       end.

(** [a % b] on integers: the result has the sign of [b]. *)
Definition py_mod (a b : Z) : result Z :=
  if b =? 0 then Raise ZeroDivisionError else Ok (a `mod` b).

(** [len(l)] *)
Definition len {A} (l : list A) : Z := Z.of_nat (length l).

(** [random.choice(l)]: [rnd] is the number the generator draws. *)
Definition random_choice {A} (rnd : nat) (l : list A) : result A :=
  if bool_decide (l = []) then Raise IndexError
  else list_getitem l (Z.of_nat rnd `mod` len l).

(** [str(n)] for an integer, and [str(v)] for an [Optional[int]]. *)
Definition str_int (n : Z) : string := NilZero.string_of_int (Z.to_int n).

Definition str_opt_int (v : option Z) : string :=
  match v with
  | Some n => str_int n
  | None => "None"
  end.

(** [range(a, b)] *)
Definition range (a b : Z) : list Z := seqZ a (b - a).

End Py.
Import Py.

(** ** The deck *)

Record Card : Set := mkCard {
  color : string;
  kind : string;
  value : option Z;
  copy_index : Z
}.

#[export] Instance Card_eq_dec : EqDecision Card.
Proof. solve_decision. Defined.

(** [deck.append(x)] *)
Definition append {A} (deck : list A) (x : A) : list A := deck ++ [x].

Definition colors : list string := ["red"; "yellow"; "green"; "blue"].

Definition build_uno_deck : result (list Card) :=
  let deck : list Card := [] in
  (* zero: one per color *)
  let deck := foldl (λ deck c, append deck (mkCard c "number" (Some 0) 1))
                    deck colors in
  (* one to nine: two per color *)
  let deck := foldl (λ deck c,
                foldl (λ deck n,
                  let deck := append deck (mkCard c "number" (Some n) 1) in
                  append deck (mkCard c "number" (Some n) 2))
                  deck (range 1 10))
                deck colors in
  (* action cards: two of each per color *)
  let deck := foldl (λ deck c,
                foldl (λ deck i,
                  let deck := append deck (mkCard c "skip" None i) in
                  let deck := append deck (mkCard c "reverse" None i) in
                  append deck (mkCard c "draw2" None i))
                  deck [1; 2])
                deck colors in
  (* wild cards: four each *)
  let deck := foldl (λ deck i,
                let deck := append deck (mkCard "wild" "wild" None i) in
                append deck (mkCard "wild" "wild_draw4" None i))
                deck (range 1 5) in
  _ ← py_assert (bool_decide (length deck = 108%nat));
  mret deck.

(** Number of cards of a deck that satisfy a decidable property. *)
Definition count (P : Card → Prop) `{∀ c, Decision (P c)} (deck : list Card) : nat :=
  length (filter P deck).

Definition is_number (v : Z) (c : Card) : Prop :=
  kind c = "number" ∧ value c = Some v.
Definition is_zero (c : Card) : Prop := is_number 0 c.
Definition is_one_to_nine (c : Card) : Prop :=
  kind c = "number" ∧ ∃ v, v ∈ range 1 10 ∧ value c = Some v.
Definition actions : list string := ["skip"; "reverse"; "draw2"].
Definition is_action (c : Card) : Prop := kind c ∈ actions.
Definition wilds : list string := ["wild"; "wild_draw4"].
Definition is_wild (c : Card) : Prop := color c = "wild" ∧ kind c ∈ wilds.

(** ** Themes and prompts *)

Definition COLOR_THEME : gmap string (string * list string) :=
  list_to_map [
    ("red",
     ("Stories of Jesus",
      [ "Jesus welcoming children in a sunny park";
        "Sermon on the Mount with smiling crowd";
        "Calming the storm gently while disciples watch";
        "Feeding the five thousand with bread and fish";
        "Walking on water in a peaceful sea scene";
        "Healing a child with kind smile, indoors";
        "Nativity with baby in manger and friendly animals";
        "Good Shepherd carrying a lamb on green hills";
        "Calling the disciples by the seaside";
        "Triumphal entry with children waving branches" ]));
    ("yellow",
     ("Old Testament heroes",
      [ "Moses parting the Red Sea, joyful style";
        "David with sling facing Goliath playfully";
        "Noah with animals near a bright rainbow";
        "Abraham looking at stars with Isaac";
        "Joseph with colorful coat smiling";
        "Jonah near a big friendly fish";
        "Daniel in the lions’ den with cuddly lions";
        "Queen Esther brave before the king";
        "Ruth gathering wheat joyfully";
        "Young Samuel listening to God at night" ]));
    ("green",
     ("Parables of Jesus",
      [ "Good Samaritan helping traveler on the road";
        "Wise and foolish builders, sun vs. rain";
        "Lost sheep found by smiling shepherd";
        "Mustard seed growing into a tree with birds";
        "Prodigal son hugged by his father happily";
        "Ten bridesmaids with glowing lamps";
        "Hidden treasure found in a field";
        "Pearl of great price in hands";
        "Sower scattering seeds with sprouts";
        "Vine and branches full of fruit" ]));
    ("blue",
     ("Miracles & key moments",
      [ "Multiplication of loaves picnic scene";
        "Healing of a blind man with happy crowd";
        "Raising Jairus’s daughter gently";
        "Cleansing of a leper with gratitude";
        "Paralytic lowered through roof playfully";
        "Water turned into wine at Cana";
        "Miraculous catch of fish with nets";
        "Mary and Martha welcoming Jesus";
        "Zacchaeus waving from a tree branch";
        "Peter rescued from sinking, gentle help" ]));
    ("wild",
     ("Great moments of the Bible",
      [ "Creation with sun, moon and smiling animals";
        "Empty tomb at sunrise, hopeful scene";
        "Pentecost with friendly flames above people";
        "Shining New Jerusalem with the river of life";
        "Ark of the Covenant stylized and bright";
        "Burning bush with warm glow";
        "Jacob’s ladder with playful angels";
        "Baptism in the Jordan, peaceful waters" ]))
  ].

(** [rnd] is what [random.choice] draws when it is called. *)
Definition concept_for_card (rnd : nat) (card : Card) : result string :=
  if bool_decide (color card = "wild") then
    theme ← getitem COLOR_THEME "wild";
    random_choice rnd theme.2
  else
    theme ← getitem COLOR_THEME (color card);
    let theme_items := theme.2 in
    match bool_decide (kind card = "number"), value card with
    | true, Some v =>
        i ← py_mod v (len theme_items);
        list_getitem theme_items i
    | _, _ =>
        i ← py_mod (copy_index card) (len theme_items);
        list_getitem theme_items i
    end.

(** The integer that selects the concept of a coloured card. *)
Definition selector (card : Card) : Z :=
  match bool_decide (kind card = "number"), value card with
  | true, Some v => v
  | _, _ => copy_index card
  end.

Definition base_style : string :=
  "cute bible illustration, cartoon style for children, soft shading, " +:+
  "bright colors, clean outlines, wholesome, friendly faces, high quality, " +:+
  "no text overlay, simple background".

Definition color_hints : gmap string string :=
  list_to_map [
    ("red", "primary accent red tones");
    ("yellow", "primary accent yellow tones");
    ("green", "primary accent green tones");
    ("blue", "primary accent blue tones");
    ("wild", "balanced rainbow accents")
  ].

Definition prompt_for_card (rnd : nat) (card : Card) : result string :=
  color_hint ← getitem color_hints (color card);
  concept ← concept_for_card rnd card;
  mret (concept +:+ ", " +:+ base_style +:+ ", " +:+ color_hint).

#[export] Instance is_number_dec v c : Decision (is_number v c).
Proof. unfold is_number. apply _. Defined.
#[export] Instance is_zero_dec c : Decision (is_zero c).
Proof. unfold is_zero. apply _. Defined.
#[export] Instance is_one_to_nine_dec c : Decision (is_one_to_nine c).
Proof.
  unfold is_one_to_nine.
  refine (cast_if (decide (kind c = "number" ∧
                           Exists (λ v, value c = Some v) (range 1 10))));
    abstract (rewrite Exists_exists in *; naive_solver).
Defined.
#[export] Instance is_action_dec c : Decision (is_action c).
Proof. unfold is_action. apply _. Defined.
#[export] Instance is_wild_dec c : Decision (is_wild c).
Proof. unfold is_wild. apply _. Defined.

(** ** Strings as Python reads them

    The character-level functions below treat every character of a
    [string] as one code point below 256. *)

Module PyStr.

Definition code (c : ascii) : Z := Z.of_N (N_of_ascii c).

(** [c.isspace()], the characters [str.strip()] removes. *)
Definition isspace (c : ascii) : bool :=
  let n := code c in
  ((9 <=? n) && (n <=? 13)) || ((28 <=? n) && (n <=? 32))
  || (n =? 133) || (n =? 160).

(** The blanks [int()] skips around a literal: the C locale's white space,
    and the two non-ASCII spaces, which [int()] first rewrites to a blank. *)
Definition int_space (c : ascii) : bool :=
  let n := code c in
  ((9 <=? n) && (n <=? 13)) || (n =? 32) || (n =? 133) || (n =? 160).

Fixpoint lstrip_with (f : ascii → bool) (s : string) : string :=
  match s with
  | String c r => if f c then lstrip_with f r else s
  | EmptyString => EmptyString
  end.

Fixpoint rstrip_with (f : ascii → bool) (s : string) : string :=
  match s with
  | String c r =>
      match rstrip_with f r with
      | EmptyString => if f c then EmptyString else String c EmptyString
      | r' => String c r'
      end
  | EmptyString => EmptyString
  end.

(** [s.strip()] *)
Definition strip (s : string) : string := rstrip_with isspace (lstrip_with isspace s).

(** [s.startswith(p)] *)
Definition startswith (s p : string) : bool := String.prefix p s.

(** [s[a:b]] and [s[a:]] for indices that are not negative. *)
Definition slice (s : string) (a b : nat) : string := String.substring a (b - a) s.
Definition slice_from (s : string) (a : nat) : string :=
  String.substring a (String.length s - a) s.

(** [s.split(sep)] for a one-character separator. *)
Fixpoint split_go (sep : ascii) (field : string) (s : string) : list string :=
  match s with
  | EmptyString => [field]
  | String c r =>
      if Ascii.eqb c sep then field :: split_go sep EmptyString r
      else split_go sep (field +:+ String c EmptyString) r
  end.
Definition split (s : string) (sep : ascii) : list string :=
  split_go sep EmptyString s.

(** [c * 2 for c in s], joined. *)
Fixpoint double_chars (s : string) : string :=
  match s with
  | EmptyString => EmptyString
  | String c r => String c (String c (double_chars r))
  end.

(** The value of a character as a digit; 37 for what is no digit in any
    base. *)
Definition digit_value (c : ascii) : Z :=
  let n := code c in
  if (48 <=? n) && (n <=? 57) then n - 48
  else if (97 <=? n) && (n <=? 122) then n - 97 + 10
  else if (65 <=? n) && (n <=? 90) then n - 65 + 10
  else 37.

(** The digits of a literal, with single underscores between them: the
    value read, how many digits, and the rest of the string.  [prev] tells
    that the last character read was an underscore. *)
Fixpoint scan_digits (base : Z) (s : string) (prev : bool) (acc : Z) (n : nat)
  : option (Z * nat * string) :=
  match s with
  | EmptyString => if prev then None else Some (acc, n, s)
  | String c r =>
      if Ascii.eqb c "_" then
        if prev then None else scan_digits base r true acc n
      else if digit_value c <? base then
        scan_digits base r false (acc * base + digit_value c) (S n)
      else if prev then None else Some (acc, n, s)
  end.

(** The prefix a base allows: [0x], [0o], [0b] in either case, and one
    underscore after it. *)
Definition skip_prefix (base : Z) (s : string) : string :=
  match s with
  | String "0" (String p r) =>
      if ((base =? 16) && (Ascii.eqb p "x" || Ascii.eqb p "X"))
         || ((base =? 8) && (Ascii.eqb p "o" || Ascii.eqb p "O"))
         || ((base =? 2) && (Ascii.eqb p "b" || Ascii.eqb p "B"))
      then match r with
           | String "_" r' => r'
           | _ => r
           end
      else s
  | _ => s
  end.

(** [int(s, base)] for an explicit base from 2 to 36: blanks, a sign, the
    base's prefix, digits, blanks.  The interpreter's limit on the number
    of decimal digits (4300 since Python 3.11) is not part of the model. *)
Definition py_int (s : string) (base : Z) : result Z :=
  let s := lstrip_with int_space s in
  let '(sign, s) :=
    match s with
    | String "+" r => (1, r)
    | String "-" r => (-1, r)
    | _ => (1, s)
    end in
  let s := skip_prefix base s in
  match s with
  | String "_" _ => Raise ValueError
  | _ =>
      match scan_digits base s false 0 0 with
      | Some (v, S _, rest) =>
          match lstrip_with int_space rest with
          | EmptyString => Ok (sign * v)
          | _ => Raise ValueError
          end
      | _ => Raise ValueError
      end
  end.

(** [map(f, l)] consumed to the end. *)
Fixpoint map_result {A B} (f : A → result B) (l : list A) : result (list B) :=
  match l with
  | [] => Ok []
  | x :: r => y ← f x; ys ← map_result f r; mret (y :: ys)
  end.

End PyStr.
Import PyStr.

(** ** The border colour *)

Definition RGB : Set := (Z * Z * Z)%type.

(** The local [hex_color] of the hex branch, from the stripped string. *)
Definition hex_color_of (color_str : string) : string :=
  let hex_color := slice_from color_str 1 in
  if bool_decide (String.length hex_color = 3%nat)
  then double_chars hex_color (* expand rgb to rrggbb *)
  else hex_color.

(** The body of the [try] of [parse_border_color]. *)
Definition parse_border_color_try (color_str : string) : result RGB :=
  let color_str := strip color_str in
  if startswith color_str "#" then
    (* hex format *)
    let hex_color := hex_color_of color_str in
    r ← py_int (slice hex_color 0 2) 16;
    g ← py_int (slice hex_color 2 4) 16;
    b ← py_int (slice hex_color 4 6) 16;
    mret (r, g, b)
  else
    (* rgb format: every failure of the unpacking is a ValueError *)
    fields ← map_result (λ f, py_int f 10) (split color_str ",");
    match fields with
    | [r; g; b] => mret (r, g, b)
    | _ => Raise ValueError
    end.

Definition parse_border_color (color_str : string) : RGB :=
  try_except (parse_border_color_try color_str) (0, 0, 0).

(** ** File names *)

Definition filename_for (card : Card) : string :=
  let base := color card +:+ "_" +:+ kind card in
  let base :=
    if bool_decide (kind card = "number")
    then base +:+ "_" +:+ str_opt_int (value card)
    else base in
  let base := base +:+ "-x" +:+ str_int (copy_index card) in
  base +:+ ".png".

(** [t] occurs in [s]. *)
Definition contains (s t : string) : Prop :=
  ∃ pre post : string, s = pre +:+ t +:+ post.

(** What the specification calls a well-formed border colour: [#rgb] or
    [#rrggbb] with hexadecimal digits, or three decimal integers from 0 to
    255 separated by commas.  These definitions follow the specification's
    words, not the code. *)
Definition is_hex_digit (c : ascii) : bool := digit_value c <? 16.
Definition is_dec_digit (c : ascii) : bool := digit_value c <? 10.

Definition all_chars (f : ascii → bool) (s : string) : bool :=
  forallb f (list_ascii_of_string s).

Definition spec_hex_color (s : string) : bool :=
  match s with
  | String "#" body =>
      (Nat.eqb (String.length body) 3 || Nat.eqb (String.length body) 6)
      && all_chars is_hex_digit body
  | _ => false
  end.

Definition spec_byte (s : string) : bool :=
  negb (Nat.eqb (String.length s) 0) && all_chars is_dec_digit s
  && match py_int s 10 with
     | Ok v => (0 <=? v) && (v <=? 255)
     | Raise _ => false
     end.

Definition spec_rgb_triple (s : string) : bool :=
  match split s "," with
  | [r; g; b] => spec_byte r && spec_byte g && spec_byte b
  | _ => false
  end.

Definition spec_well_formed (s : string) : bool :=
  spec_hex_color s || spec_rgb_triple s.

(** ** Configuration

    The module reads its settings from the process environment when it is
    imported; [environ] is [os.environ]. *)

Module Config.

(** [c.lower()] for a code point below 256. *)
Definition lower_char (c : ascii) : ascii :=
  let n := code c in
  if ((65 <=? n) && (n <=? 90))
     || ((192 <=? n) && (n <=? 222) && negb (n =? 215))
  then ascii_of_N (Z.to_N (n + 32)) else c.

Fixpoint lower (s : string) : string :=
  match s with
  | EmptyString => EmptyString
  | String c r => String (lower_char c) (lower r)
  end.

(** [os.getenv(key, default)] *)
Definition getenv (environ : gmap string string) (key default : string) : string :=
  match environ !! key with
  | Some v => v
  | None => default
  end.

(** [os.path.join(a, b)] on a POSIX system. *)
Definition path_join (a b : string) : string :=
  if startswith b "/" then b
  else if bool_decide (a = "") || String.prefix "/" (String.rev a) then a +:+ b
  else a +:+ "/" +:+ b.

Section WithEnviron.
Variable environ : gmap string string.

Definition openai_api_key : option string := environ !! "OPENAI_API_KEY".
(** [if openai_api_key:] binds [client]; without it the name is unbound. *)
Definition client_bound : bool :=
  match openai_api_key with
  | Some k => negb (bool_decide (k = ""))
  | None => false
  end.

Definition openai_model : string := getenv environ "OPENAI_IMAGE_MODEL" "gpt-image-1".
Definition openai_size : string := getenv environ "OPENAI_IMAGE_SIZE" "1024x1792".

Definition OUTPUT_DIR : string := getenv environ "UNO_OUTPUT_DIR" "uno-cards-out".
Definition PDF_PATH : string := path_join OUTPUT_DIR "uno-cards.pdf".

Definition test_mode : bool :=
  bool_decide (lower (getenv environ "UNO_TEST_MODE" "false") = "true").
Definition generate_first_only : bool :=
  bool_decide (lower (getenv environ "UNO_GENERATE_FIRST_ONLY" "false") = "true").

Definition border_color : string := getenv environ "UNO_BORDER_COLOR" "#000000".
End WithEnviron.

End Config.
Import Config.

(** ** The export pipeline

    What lies outside the program is a [Platform]: the raster images, the
    imaging library's compositing of one card, the image service, the test
    background on disk, the random generator and the environment. *)

(** One call of [client.images.generate]. *)
Record Request : Set := mkRequest {
  req_model : string;
  req_prompt : string;
  req_size : string
}.

Class Platform : Type := {
  Image : Type;
  (** [render_card(card, art)] *)
  render_card : Card → Image → Image;
  (** the decoded answer of the image service, or its failure *)
  service : Request → result Image;
  (** the image at [test_background_path], when the file exists *)
  test_background : option Image;
  (** the [k]-th number the random generator draws *)
  random_draws : nat → nat;
  environ : gmap string string
}.

Section Pipeline.
Context `{Platform}.

(** What a run leaves behind: the requests sent, the files written (in
    order), the directories made and the number of random draws. *)
Record World : Type := mkWorld {
  w_requests : list Request;
  w_files : list (string * Image);
  w_dirs : list string;
  w_draws : nat
}.

Definition world0 : World := mkWorld [] [] [] 0.

(** A computation that may raise and changes the world either way. *)
Definition io (A : Type) : Type := World → result A * World.

Definition io_ret {A} (a : A) : io A := λ w, (Ok a, w).
Definition io_bind {A B} (m : io A) (k : A → io B) : io B := λ w,
  match m w with
  | (Ok a, w') => k a w'
  | (Raise e, w') => (Raise e, w')
  end.
Definition io_lift {A} (r : result A) : io A := λ w, (r, w).
Definition io_raise {A} (e : exn) : io A := io_lift (Raise e).

#[local] Notation "x ⇐ m ;; k" := (io_bind m (λ x, k))
  (at level 100, m at next level, k at level 200, right associativity,
   only parsing).
#[local] Notation "m ;;; k" := (io_bind m (λ _, k))
  (at level 100, k at level 200, right associativity, only parsing).

(** [os.makedirs(path, exist_ok=True)] *)
Definition ensure_dir (path : string) : io unit := λ w,
  (Ok tt, mkWorld (w_requests w) (w_files w) (w_dirs w ++ [path]) (w_draws w)).

(** [img.save(path, "PNG")] *)
Definition save (img : Image) (path : string) : io unit := λ w,
  (Ok tt, mkWorld (w_requests w) (w_files w ++ [(path, img)]) (w_dirs w) (w_draws w)).

(** [prompt_for_card] in a run: a wild card takes the next draw. *)
Definition prompt_for_card_io (card : Card) : io string := λ w,
  (prompt_for_card (random_draws (w_draws w)) card,
   if bool_decide (color card = "wild")
   then mkWorld (w_requests w) (w_files w) (w_dirs w) (S (w_draws w))
   else w).

(** The default of the parameter [size]. *)
Definition default_size : string := "1024x1024".

(** [gen_image_from_openai(prompt, size)]: the request goes out, then
    the answer is decoded. *)
Definition gen_image_from_openai (prompt : string) (size : string) : io Image :=
  if client_bound environ then
    λ w, let request := mkRequest "gpt-image-1" prompt size in
         (service request,
          mkWorld (w_requests w ++ [request]) (w_files w) (w_dirs w) (w_draws w))
  else io_raise NameError.

Definition load_test_background : io Image :=
  match test_background with
  | Some img => io_ret img
  | None => io_raise FileNotFoundError
  end.

(** The [for] loop of [generate_all_cards]; [print] and [time.sleep]
    are left out. *)
Fixpoint export_loop (test_bg : option Image) (deck : list Card)
    (saved : list string) : io (list string) :=
  match deck with
  | [] => io_ret saved
  | card :: deck =>
      art ⇐ (if test_mode environ then
               match test_bg with
               | Some art => io_ret art
               | None => io_raise AttributeError
               end
             else
               prompt ⇐ prompt_for_card_io card ;;
               gen_image_from_openai prompt default_size) ;;
      let card_img := render_card card art in
      let out_path := path_join (OUTPUT_DIR environ) (filename_for card) in
      save card_img out_path ;;;
      let saved := append saved out_path in
      (* stop after first card if generate_first_only is enabled *)
      if generate_first_only environ then io_ret saved
      else export_loop test_bg deck saved
  end.

Definition generate_all_cards : io (list string) :=
  ensure_dir (OUTPUT_DIR environ) ;;;
  deck ⇐ io_lift build_uno_deck ;;
  let saved : list string := [] in
  (* load test background once if in test mode *)
  test_bg ⇐ (if test_mode environ
             then img ⇐ load_test_background ;; io_ret (Some img)
             else io_ret None) ;;
  export_loop test_bg deck saved.

End Pipeline.

(** What every request of the program carries, whatever is configured. *)
Definition fixed_request (q : Request) : Prop :=
  req_model q = "gpt-image-1" ∧ req_size q = "1024x1024".

Definition requests_fixed `{Platform} (w : World) : Prop :=
  Forall fixed_request (w_requests w).

(** Two platforms to run the pipeline on: images are the cards they show
    the art of; the service answers every request. *)
Definition smoke_test_platform : Platform := {|
  Image := list Card;
  render_card := λ card art, card :: art;
  service := λ _, Ok [];
  test_background := Some [];
  random_draws := λ k, k;
  environ := list_to_map [("UNO_TEST_MODE", "true");
                          ("UNO_GENERATE_FIRST_ONLY", "True")]
|}.

Definition configured_platform : Platform := {|
  Image := list Card;
  render_card := λ card art, card :: art;
  service := λ _, Ok [];
  test_background := None;
  random_draws := λ k, k;
  environ := list_to_map [("OPENAI_API_KEY", "sk-test");
                          ("OPENAI_IMAGE_MODEL", "dall-e-3");
                          ("UNO_GENERATE_FIRST_ONLY", "true")]
|}.

Definition full_test_platform : Platform := {|
  Image := list Card;
  render_card := λ card art, card :: art;
  service := λ _, Raise ServiceError;
  test_background := Some [];
  random_draws := λ k, k;
  environ := list_to_map [("UNO_TEST_MODE", "TRUE")]
|}.

(** ** Numbers of the page layout

    The layout is written once over an interface of arithmetic and run
    on two instances: exact rationals, and the binary64 floats the program
    computes with. *)

Class Arith (R : Type) : Type := {
  add : R → R → R;
  sub : R → R → R;
  mul : R → R → R;
  div : R → R → R;
  (** [a > b] and [a == 0] *)
  gtb : R → R → bool;
  zerob : R → bool;
  (** an [int] where a [float] is needed *)
  of_int : Z → R
}.

Declare Scope py_scope.
Delimit Scope py_scope with py.
Notation "a + b" := (add a b) : py_scope.
Notation "a - b" := (sub a b) : py_scope.
Notation "a * b" := (mul a b) : py_scope.

(** [a / b] raises on a zero divisor. *)
Definition truediv {R} `{Arith R} (a b : R) : result R :=
  if zerob b then Raise ZeroDivisionError else Ok (div a b).

(** The decimal literal [m / d] with [d] a power of ten: the correctly
    rounded quotient is the float the literal denotes. *)
Definition decimal {R} `{Arith R} (m d : Z) : R := div (of_int m) (of_int d).

#[export] Instance Q_arith : Arith Q := {|
  add := Qplus;
  sub := Qminus;
  mul := Qmult;
  div := Qdiv;
  gtb := λ a b, negb (Qle_bool a b);
  zerob := λ a, Qeq_bool a 0;
  of_int := inject_Z
|}.

Definition float_of_int (z : Z) : float :=
  if z <? 0 then PrimFloat.opp (PrimFloat.of_uint63 (Uint63.of_Z (- z)))
  else PrimFloat.of_uint63 (Uint63.of_Z z).

#[export] Instance float_arith : Arith float := {|
  add := PrimFloat.add;
  sub := PrimFloat.sub;
  mul := PrimFloat.mul;
  div := PrimFloat.div;
  gtb := λ a b, PrimFloat.ltb b a;
  zerob := λ a, PrimFloat.eqb a PrimFloat.zero;
  of_int := float_of_int
|}.

(** ** The page composer *)

Section Composer.
Context {R : Type} `{Arith R}.
Local Open Scope py_scope.

(** [reportlab.lib.units] and [reportlab.lib.pagesizes.A4], in points. *)
Definition inch : R := of_int 72.
Definition cm : R := div inch (decimal 254 100).
Definition mm : R := cm * decimal 1 10.
Definition A4 : R * R := (of_int 210 * mm, of_int 297 * mm).

Record Layout : Type := mkLayout {
  card_width : R;
  card_height : R;
  spacing_horizontal : R;
  spacing_vertical : R
}.

Definition cards_per_row : Z := 3.
Definition cards_per_column : Z := 3.
Definition cards_per_page : Z := (cards_per_row * cards_per_column)%Z.

(** The first pass of [images_to_pdf]: margins, spacing and the
    candidate cell. *)
Definition margin (pw : R) : R := pw * decimal 2 100.
Definition spacing (pw : R) : R := pw * decimal 15 1000.
Definition available_width (pw : R) : R :=
  pw - (of_int 2 * margin pw) - (of_int 2 * spacing pw).
Definition available_height (pw ph : R) : R :=
  ph - (of_int 2 * margin pw) - (of_int 2 * spacing pw).

(** The geometry of [images_to_pdf], up to its loop. *)
Definition layout (pw ph : R) : result Layout :=
  (* calculate card dimensions to fit exactly 3x3 *)
  card_width ← truediv (available_width pw) (of_int cards_per_row);
  card_height ← truediv (available_height pw ph) (of_int cards_per_column);
  (* ensure aspect ratio is maintained *)
  target_aspect ← truediv (of_int 825) (of_int 1275);
  current_aspect ← truediv card_width card_height;
  dims ← (if gtb current_aspect target_aspect
          then (* too wide, adjust width *)
            mret (card_height * target_aspect, card_height)
          else (* too tall, adjust height *)
            card_height ← truediv card_width target_aspect;
            mret (card_width, card_height));
  let card_width := dims.1 in
  let card_height := dims.2 in
  (* recalculate spacing to center the cards *)
  let total_width := of_int cards_per_row * card_width in
  let total_height := of_int cards_per_column * card_height in
  spacing_horizontal ←
    truediv (pw - total_width) (of_int (cards_per_row + 1));
  spacing_vertical ←
    truediv (ph - total_height) (of_int (cards_per_column + 1));
  mret (mkLayout card_width card_height spacing_horizontal spacing_vertical).

(** One [drawImage] call. *)
Record Draw : Type := mkDraw {
  d_path : string;
  d_x : R;
  d_y : R;
  d_width : R;
  d_height : R
}.

(** The canvas: the pages shown so far and the page being drawn. *)
Record Canvas : Type := mkCanvas {
  pages : list (list Draw);
  page : list Draw
}.

Definition drawImage (c : Canvas) (d : Draw) : Canvas :=
  mkCanvas (pages c) (page c ++ [d]).
Definition showPage (c : Canvas) : Canvas :=
  mkCanvas (pages c ++ [page c]) [].
(** [c.save()] shows the current page when something is drawn on it;
    the document is the list of its pages. *)
Definition canvas_save (c : Canvas) : list (list Draw) :=
  match page c with
  | [] => pages c
  | _ => pages (showPage c)
  end.

(** The coordinates of a cell, with equal spacing. *)
Definition cell_x (L : Layout) (col : Z) : R :=
  of_int (col + 1) * spacing_horizontal L + of_int col * card_width L.
Definition cell_y (L : Layout) (ph : R) (row : Z) : R :=
  ph - (of_int (row + 1) * spacing_vertical L
        + of_int (row + 1) * card_height L).

(** The drawing of image [i]. *)
Definition draw_card (L : Layout) (ph : R) (i : Z) (p : string) : Draw :=
  (* calculate position on current page *)
  let card_index_in_page := (i `mod` cards_per_page)%Z in
  let row := (card_index_in_page `div` cards_per_row)%Z in
  let col := (card_index_in_page `mod` cards_per_row)%Z in
  let x := cell_x L col in
  let y := cell_y L ph row in
  mkDraw p x y (card_width L) (card_height L).

(** The loop over [enumerate(image_paths)], from index [i]; [n] is
    [len(image_paths)]. *)
Fixpoint compose_loop (L : Layout) (ph : R) (n : Z) (i : Z)
    (image_paths : list string) (c : Canvas) : Canvas :=
  match image_paths with
  | [] => c
  | p :: rest =>
      let c := drawImage c (draw_card L ph i p) in
      (* start new page when page is full *)
      let c := if (((i + 1) `mod` cards_per_page =? 0) && (i + 1 <? n))%Z
               then showPage c else c in
      compose_loop L ph n (i + 1)%Z rest c
  end.

Definition images_to_pdf (pagesize : R * R) (image_paths : list string)
  : result (list (list Draw)) :=
  let c := mkCanvas [] [] in
  let '(pw, ph) := pagesize in
  L ← layout pw ph;
  let c := compose_loop L ph (len image_paths) 0 image_paths c in
  mret (canvas_save c).

(** The drawings of a run, in the order of the images. *)
Definition drawings (L : Layout) (ph : R) (i : nat) (ps : list string)
  : list Draw :=
  imap (λ k p, draw_card L ph (Z.of_nat (i + k)) p) ps.

End Composer.
Arguments Layout R : clear implicits.
Arguments Draw R : clear implicits.
Arguments Canvas R : clear implicits.

(** The sizes of the pages of a document of [n] cards: full pages of
    nine, then the rest. *)
Definition page_sizes (n : nat) : list nat :=
  replicate (n / 9) 9%nat ++ (if (n mod 9 =? 0)%nat then [] else [(n mod 9)%nat]).

(** Two floats agree within the rounding tolerance [2^-40]. *)
Definition tolerance : float := 0x1p-40%float.
Definition close (a b : float) : bool :=
  PrimFloat.leb (PrimFloat.abs (PrimFloat.sub a b)) tolerance.

(** The candidate cell and the target aspect, as [layout] computes them. *)
Definition candidate_width (pw : Q) : Q := (available_width pw / 3)%Q.
Definition candidate_height (pw ph : Q) : Q := (available_height pw ph / 3)%Q.
Definition target_aspect : Q := (inject_Z 825 / inject_Z 1275)%Q.

(** ** More of the program: tables, marks and sizes *)

(** Every character, for checks that go through all of them. *)
Definition all_ascii : list ascii := ascii_of_nat <$> seq 0 256.

#[export] Instance exn_eq_dec : EqDecision exn.
Proof. solve_decision. Defined.
#[export] Instance result_eq_dec {A} `{EqDecision A} : EqDecision (result A).
Proof. solve_decision. Defined.

(** A string of two characters. *)
Definition pair_string (c1 c2 : ascii) : string := String c1 (String c2 EmptyString).

(** The face colours. *)
Definition COLOR_RED : RGB := (228, 39, 43).
Definition COLOR_YEL : RGB := (253, 187, 48).
Definition COLOR_GRN : RGB := (83, 175, 80).
Definition COLOR_BLU : RGB := (0, 116, 188).
Definition COLOR_BLK : RGB := (20, 20, 20).

Definition color_table : gmap string RGB :=
  list_to_map [
    ("red", COLOR_RED);
    ("yellow", COLOR_YEL);
    ("green", COLOR_GRN);
    ("blue", COLOR_BLU);
    ("wild", COLOR_BLK)
  ].

Definition color_rgb (name : string) : result RGB := getitem color_table name.

(** symbol to image mapping *)
Definition SYMBOL_IMAGES : gmap string string :=
  list_to_map [
    ("skip", "extras/images/symbol-skip.png");
    ("reverse", "extras/images/symbol-reverse.png");
    ("wild", "extras/images/symbol-star.png");
    ("draw2", "extras/images/symbol-plus2.png");
    ("wild_draw4", "extras/images/symbol-plus4.png")
  ].

Definition symbol_for (card : Card) : string :=
  if bool_decide (kind card = "number") then str_opt_int (value card)
  else "?".

(** [path_exists] is [os.path.exists]. *)
Definition get_symbol_image_path (path_exists : string → bool) (card : Card)
  : option string :=
  match SYMBOL_IMAGES !! kind card with
  | Some path => if path_exists path then Some path else None
  | None => None
  end.

(** What [draw_corners] puts in the two corners: the symbol image at a
    path, or a text. *)
Inductive CornerMark : Set :=
| SymbolImage (path : string)
| Text (s : string).

Definition draw_corners_mark (path_exists : string → bool) (card : Card)
  : CornerMark :=
  match get_symbol_image_path path_exists card with
  | Some symbol_img_path =>
      if bool_decide (symbol_img_path = "") then Text (symbol_for card)
      else SymbolImage symbol_img_path
  | None => Text (symbol_for card)
  end.

(** The colours the tables know. *)
Definition known_colors : list string := "wild" :: colors.

(** The path of a card's PNG. *)
Definition out_path `{Platform} (card : Card) : string :=
  path_join (OUTPUT_DIR environ) (filename_for card).

(** What a run of the loop over [deck] leaves, ended or aborted: the PNGs
    of the first [k] cards, in order, and at most one request more than
    files. *)
Definition loop_outcome `{Platform} (deck : list Card) (saved : list string)
    (w : World) (run : result (list string) * World) : Prop :=
  ∃ k : nat,
    (k ≤ length deck)%nat ∧
    (w_files run.2).*1 = ((w_files w).*1 ++ (out_path <$> take k deck))%list ∧
    w_dirs run.2 = w_dirs w ∧
    (length (w_requests run.2) ≤ length (w_requests w) + k + 1)%nat ∧
    (test_mode environ = true → w_requests run.2 = w_requests w) ∧
    (generate_first_only environ = true → (k ≤ 1)%nat) ∧
    (∀ paths : list string, run.1 = Ok paths →
       paths = (saved ++ (out_path <$> take k deck))%list ∧
       (k = length deck ∨ (generate_first_only environ = true ∧ k = 1%nat))).

(** [main]: the PNGs, then the document of [images_to_pdf] on the A4
    page; the [print] calls are left out. *)
Definition main `{Platform} : World → result (list (list (Draw float))) * World :=
  io_bind generate_all_cards
          (λ paths, io_lift (images_to_pdf (@A4 float _) paths)).

(** Platforms for the runs that abort, and for a full generative run. *)
Definition no_background_platform : Platform := {|
  Image := list Card;
  render_card := λ card art, card :: art;
  service := λ _, Ok [];
  test_background := None;
  random_draws := λ k, k;
  environ := list_to_map [("UNO_TEST_MODE", "true")]
|}.

Definition no_key_platform : Platform := {|
  Image := list Card;
  render_card := λ card art, card :: art;
  service := λ _, Ok [];
  test_background := None;
  random_draws := λ k, k;
  environ := ∅
|}.

Definition failing_service_platform : Platform := {|
  Image := list Card;
  render_card := λ card art, card :: art;
  service := λ _, Raise ServiceError;
  test_background := None;
  random_draws := λ k, k;
  environ := list_to_map [("OPENAI_API_KEY", "sk-test")]
|}.

Definition generative_platform : Platform := {|
  Image := list Card;
  render_card := λ card art, card :: art;
  service := λ _, Ok [];
  test_background := None;
  random_draws := λ k, (3 * k)%nat;
  environ := list_to_map [("OPENAI_API_KEY", "sk-test")]
|}.

(** The request of a card: the fixed model and size, and a prompt of the
    card for some draw. *)
Definition request_of (q : Request) (card : Card) : Prop :=
  fixed_request q ∧ ∃ rnd : nat, prompt_for_card rnd card = Ok (req_prompt q).

(** The first card of the deck. *)
Definition first_card : Card := mkCard "red" "number" (Some 0) 1.

(** ** Sizes of a card *)

Definition CARD_W : Z := 825.
Definition CARD_H : Z := 1275.

(** [int(os.getenv("UNO_UPSCALE_FACTOR", "3"))], read when the module is
    imported. *)
Definition upscale_factor (environ : gmap string string) : result Z :=
  py_int (getenv environ "UNO_UPSCALE_FACTOR" "3") 10.

(** The size of the image [render_card] returns: the card is drawn at
    [CARD_W] by [CARD_H] and resized when the factor is above one. *)
Definition render_size (upscale_factor : Z) : Z * Z :=
  if 1 <? upscale_factor
  then (CARD_W * upscale_factor, CARD_H * upscale_factor)
  else (CARD_W, CARD_H).




(** The values of a flag that [.lower() == "true"] accepts. *)
Definition true_spellings : list string :=
  a ← ["t"; "T"]%char; b ← ["r"; "R"]%char;
  c ← ["u"; "U"]%char; d ← ["e"; "E"]%char;
  [String a (String b (String c (String d EmptyString)))].

(** ** Theorems *)

(** C1: [build_uno_deck] returns 108 cards: one zero per colour, two of
    each value 1..9 per colour, two of each action per colour and four of
    each wild kind, in the order zeros, numbers, actions, wilds; the final
    [assert] raises for any other length. *)
Theorem build_uno_deck_canonical :
  ∃ deck : list Card,
    build_uno_deck = Ok deck ∧ length deck = 108%nat ∧
    (* distribution *)
    Forall (λ c, count (λ x, color x = c ∧ is_zero x) deck = 1%nat) colors ∧
    count is_zero deck = 4%nat ∧
    Forall (λ c, Forall (λ v,
      count (λ x, color x = c ∧ is_number v x) deck = 2%nat) (range 1 10)) colors ∧
    count is_one_to_nine deck = 72%nat ∧
    Forall (λ c, Forall (λ k,
      count (λ x, color x = c ∧ kind x = k) deck = 2%nat) actions) colors ∧
    count is_action deck = 24%nat ∧
    Forall (λ k, count (λ x, kind x = k) deck = 4%nat) wilds ∧
    count is_wild deck = 8%nat ∧
    (* order *)
    take 4 deck = (λ c, mkCard c "number" (Some 0) 1) <$> colors ∧
    Forall is_one_to_nine (take 72 (drop 4 deck)) ∧
    Forall is_action (take 24 (drop 76 deck)) ∧
    Forall is_wild (drop 100 deck) ∧
    (* the assertion *)
    (∀ d : list Card, length d ≠ 108%nat →
       (py_assert (bool_decide (length d = 108%nat)) ≫= λ _, mret d)
       = Raise AssertionError).
Proof.
  eexists. split; [vm_compute; reflexivity|].
  repeat split; try compute_done.
  intros d Hd. rewrite bool_decide_false by done. reflexivity.
Qed.

(** ** Themes *)

Lemma COLOR_THEME_keys (c : string) (t : string * list string) :
  COLOR_THEME !! c = Some t → c ∈ colors ∨ c = "wild".
Proof.
  unfold COLOR_THEME, colors. intros H%elem_of_list_to_map_2.
  rewrite !elem_of_cons, elem_of_nil in H. rewrite !elem_of_cons.
  destruct_or!; simplify_eq; auto 10.
Qed.

Lemma colored_theme_length (c : string) (t : string * list string) :
  c ≠ "wild" → COLOR_THEME !! c = Some t → length t.2 = 10%nat.
Proof.
  intros Hw H. destruct (COLOR_THEME_keys _ _ H) as [Hc|Hc]; [|done].
  unfold colors in Hc.
  repeat (apply elem_of_cons in Hc as [->|Hc]);
    [vm_compute in H; by simplify_eq ..|].
  by apply elem_of_nil in Hc.
Qed.

(** Indexing a non-empty list at a remainder modulo its length succeeds. *)
Lemma list_getitem_mod {A} (l : list A) (i : Z) :
  l ≠ [] →
  ∃ x, l !! Z.to_nat (i `mod` len l) = Some x ∧
       (py_mod i (len l) ≫= list_getitem l) = Ok x.
Proof.
  intros Hl. unfold py_mod, len.
  assert (0 < Z.of_nat (length l)) as Hpos by (destruct l; [done|simpl; lia]).
  pose proof (Z.mod_pos_bound i _ Hpos) as Hb.
  destruct (Z.eqb_spec (Z.of_nat (length l)) 0) as [?|_]; [lia|].
  cbn [mbind result_bind]. unfold list_getitem.
  assert ((i `mod` Z.of_nat (length l) <? 0) = false) as E1 by lia.
  assert ((Z.of_nat (length l) <=? i `mod` Z.of_nat (length l)) = false) as E2
    by lia.
  rewrite !E1, E2. cbn [orb].
  destruct (lookup_lt_is_Some_2 l (Z.to_nat (i `mod` Z.of_nat (length l))))
    as [x Hx]; [lia|].
  exists x. by rewrite Hx.
Qed.

Lemma concept_for_card_colored (rnd : nat) (card : Card) title theme_items :
  color card ≠ "wild" →
  COLOR_THEME !! color card = Some (title, theme_items) →
  ∃ s, theme_items !! Z.to_nat (selector card `mod` len theme_items) = Some s ∧
       concept_for_card rnd card = Ok s.
Proof.
  intros Hw Ht.
  pose proof (colored_theme_length _ _ Hw Ht) as Hlen. simpl in Hlen.
  assert (theme_items ≠ []) as Hne by (intros ->; done).
  destruct (list_getitem_mod theme_items (selector card) Hne) as (s & Hs & Hget).
  exists s. split; [done|].
  unfold concept_for_card, getitem. rewrite bool_decide_false by done.
  rewrite Ht. cbn [mbind result_bind snd]. rewrite <- Hget. unfold selector.
  by destruct (bool_decide (kind card = "number")), (value card).
Qed.

(** C2: for a card whose colour is not [wild] the concept does not depend
    on the random draw; a number card with value [v] gets
    [theme_items[v mod N]] and every other kind gets
    [theme_items[copy_index mod N]], where [theme_items] is the concept
    list of the card's colour and [N] its length. *)
Theorem concept_for_card_deterministic (card : Card) :
  color card ≠ "wild" →
  (∀ r1 r2 : nat, concept_for_card r1 card = concept_for_card r2 card) ∧
  (∀ (r : nat) (title : string) (theme_items : list string),
     COLOR_THEME !! color card = Some (title, theme_items) →
     let N := len theme_items in
     (∀ v : Z, kind card = "number" → value card = Some v →
        ∃ s, theme_items !! Z.to_nat (v `mod` N) = Some s ∧
             concept_for_card r card = Ok s) ∧
     (kind card ≠ "number" →
        ∃ s, theme_items !! Z.to_nat (copy_index card `mod` N) = Some s ∧
             concept_for_card r card = Ok s)).
Proof.
  intros Hw. split.
  - intros r1 r2. unfold concept_for_card.
    by rewrite bool_decide_false by done.
  - intros r title theme_items Ht N. subst N.
    destruct (concept_for_card_colored r card _ _ Hw Ht) as (s & Hs & Hc).
    unfold selector in Hs. split.
    + intros v Hk Hv. exists s.
      by rewrite bool_decide_true, Hv in Hs by done.
    + intros Hk. exists s. by rewrite bool_decide_false in Hs by done.
Qed.

Lemma concept_for_card_deterministic_witness :
  concept_for_card 0 (mkCard "red" "number" (Some 3) 1)
  = concept_for_card 7 (mkCard "red" "number" (Some 3) 1).
Proof.
  exact (proj1 (concept_for_card_deterministic
                  (mkCard "red" "number" (Some 3) 1) ltac:(done)) 0%nat 7%nat).
Defined.

(** C10: for each of the four colours and every copy index the skip,
    reverse and draw2 cards get the same concept, the colour's
    [theme_items[copy_index mod 10]]. *)
Theorem concept_ignores_action_kind (c : string) (i : Z) (v : option Z) (r : nat) :
  c ∈ colors →
  ∃ (title : string) (theme_items : list string) (s : string),
    COLOR_THEME !! c = Some (title, theme_items) ∧
    theme_items !! Z.to_nat (i `mod` 10) = Some s ∧
    concept_for_card r (mkCard c "skip" v i) = Ok s ∧
    concept_for_card r (mkCard c "reverse" v i) = Ok s ∧
    concept_for_card r (mkCard c "draw2" v i) = Ok s.
Proof.
  intros Hc.
  assert (c ≠ "wild") as Hw.
  { intros ->. unfold colors in Hc. rewrite !elem_of_cons, elem_of_nil in Hc.
    destruct_or!; done. }
  assert (∃ t, COLOR_THEME !! c = Some t) as [[title theme_items] Ht].
  { unfold colors in Hc. rewrite !elem_of_cons, elem_of_nil in Hc.
    destruct_or!; try done; subst c; vm_compute; eauto. }
  pose proof (colored_theme_length _ _ Hw Ht) as Hlen. simpl in Hlen.
  exists title, theme_items.
  destruct (concept_for_card_colored r (mkCard c "skip" v i) title theme_items)
    as (s & Hs & H1); [done..|].
  destruct (concept_for_card_colored r (mkCard c "reverse" v i) title theme_items)
    as (s2 & Hs2 & H2); [done..|].
  destruct (concept_for_card_colored r (mkCard c "draw2" v i) title theme_items)
    as (s3 & Hs3 & H3); [done..|].
  unfold selector, len in Hs, Hs2, Hs3. simpl in Hs, Hs2, Hs3.
  rewrite Hlen in Hs, Hs2, Hs3.
  change (Z.of_nat 10) with 10 in Hs, Hs2, Hs3.
  exists s. simplify_eq. done.
Qed.

Lemma concept_ignores_action_kind_witness :
  ∃ (title : string) (theme_items : list string) (s : string),
    COLOR_THEME !! "green" = Some (title, theme_items) ∧
    theme_items !! Z.to_nat (2 `mod` 10) = Some s ∧
    concept_for_card 5 (mkCard "green" "skip" None 2) = Ok s ∧
    concept_for_card 5 (mkCard "green" "reverse" None 2) = Ok s ∧
    concept_for_card 5 (mkCard "green" "draw2" None 2) = Ok s.
Proof.
  apply (concept_ignores_action_kind "green" 2 None 5).
  unfold colors. rewrite !elem_of_cons. auto.
Defined.

(** ** The border colour *)

(** C6: the four test vectors of the border colour parser. *)
Theorem parse_border_color_vectors :
  parse_border_color "#fff" = (255, 255, 255) ∧
  parse_border_color "#112233" = (17, 34, 51) ∧
  parse_border_color "10,20,30" = (10, 20, 30) ∧
  parse_border_color "not-a-color" = (0, 0, 0).
Proof. repeat split; vm_compute; reflexivity. Qed.

Lemma map_result_length {A B} (f : A → result B) (l : list A) (ys : list B) :
  map_result f l = Ok ys → length ys = length l.
Proof.
  revert ys. induction l as [|x l IH]; intros ys; cbn.
  - by intros [= <-].
  - destruct (f x) as [y|]; cbn; [|done].
    destruct (map_result f l) as [ys'|]; cbn; [|done].
    intros [= <-]. cbn. f_equal. by apply IH.
Qed.

Lemma map_result_raises {A B} (f : A → result B) (l : list A) (x : A) :
  x ∈ l → raises (f x) → raises (map_result f l).
Proof.
  intros Hx [e He]. induction l as [|y l IH]; [by apply elem_of_nil in Hx|].
  apply elem_of_cons in Hx as [<-|Hx]; cbn.
  - rewrite He. by exists e.
  - destruct (f y) as [?|e']; cbn; [|by exists e'].
    destruct (IH Hx) as [e' ->]. by exists e'.
Qed.

(** C7, as the code has it: the fall-back to black is taken when reading
    fails.  After [strip], a string that starts with [#] falls back when
    one of the two-character slices at 0, 2 and 4 of its (possibly
    doubled) body is no base-16 literal; any other string falls back when
    it does not split at commas into exactly three fields, or when a field
    is no decimal literal. *)
Theorem parse_border_color_fallback (color_str : string) :
  let s := strip color_str in
  (if startswith s "#"
   then ∃ i : nat, i ∈ [0; 2; 4]%nat ∧
          raises (py_int (slice (hex_color_of s) i (i + 2)) 16)
   else length (split s ",") ≠ 3%nat ∨
        ∃ f : string, f ∈ split s "," ∧ raises (py_int f 10)) →
  parse_border_color color_str = (0, 0, 0).
Proof.
  intros s. unfold parse_border_color, parse_border_color_try. fold s.
  destruct (startswith s "#").
  - intros (i & Hi & e & He).
    rewrite !elem_of_cons, elem_of_nil in Hi.
    destruct Hi as [->|[->|[->|[]]]]; cbn [Nat.add] in He.
    + by rewrite He.
    + destruct (py_int (slice (hex_color_of s) 0 2) 16); [|done].
      cbn [mbind result_bind]. by rewrite He.
    + destruct (py_int (slice (hex_color_of s) 0 2) 16); [|done].
      cbn [mbind result_bind].
      destruct (py_int (slice (hex_color_of s) 2 4) 16); [|done].
      cbn [mbind result_bind]. by rewrite He.
  - intros H.
    destruct (map_result (λ f, py_int f 10) (split s ",")) as [ys|e] eqn:Hm;
      [|done].
    cbn [mbind result_bind].
    destruct H as [Hlen|(f & Hf & Hr)].
    + apply map_result_length in Hm. rewrite <- Hm in Hlen.
      by destruct ys as [|? [|? [|? [|]]]].
    + destruct (map_result_raises (λ f, py_int f 10) _ f Hf Hr) as [e He].
      by rewrite Hm in He.
Qed.

(** What is read is returned as it is read: neither the range of the
    numbers nor the length of a hex body is checked. *)
Lemma parse_border_color_reads (color_str : string) (r g b : Z) :
  let s := strip color_str in
  (if startswith s "#"
   then py_int (slice (hex_color_of s) 0 2) 16 = Ok r ∧
        py_int (slice (hex_color_of s) 2 4) 16 = Ok g ∧
        py_int (slice (hex_color_of s) 4 6) 16 = Ok b
   else ∃ fr fg fb : string,
          split s "," = [fr; fg; fb] ∧
          py_int fr 10 = Ok r ∧ py_int fg 10 = Ok g ∧ py_int fb 10 = Ok b) →
  parse_border_color color_str = (r, g, b).
Proof.
  intros s. unfold parse_border_color, parse_border_color_try. fold s.
  destruct (startswith s "#").
  - intros (-> & -> & ->). done.
  - intros (fr & fg & fb & -> & Hr & Hg & Hb). cbn [map_result].
    by rewrite Hr, Hg, Hb.
Qed.

Lemma parse_border_color_fallback_witness :
  parse_border_color "not-a-color" = (0, 0, 0).
Proof.
  apply (parse_border_color_fallback "not-a-color").
  left. vm_compute. lia.
Defined.

(** C7, as stated, fails: a decimal triple out of range and a hex body of
    five digits are not well-formed, and neither is replaced by black. *)
Lemma parse_border_color_keeps_malformed :
  spec_well_formed "300,0,0" = false ∧
  parse_border_color "300,0,0" = (300, 0, 0) ∧
  parse_border_color "300,0,0" ≠ (0, 0, 0) ∧
  spec_well_formed "#12345" = false ∧
  parse_border_color "#12345" = (18, 52, 5).
Proof. repeat split; by vm_compute. Qed.

(** ** File names *)

Lemma string_app_assoc (a b c : string) : (a +:+ b) +:+ c = a +:+ b +:+ c.
Proof.
  induction a as [|x a IH]; [done|].
  change (String x ((a +:+ b) +:+ c) = String x (a +:+ b +:+ c)).
  by rewrite IH.
Qed.

Lemma filename_for_pattern (card : Card) :
  filename_for card =
    color card +:+ "_" +:+ kind card
    +:+ (if bool_decide (kind card = "number")
         then "_" +:+ str_opt_int (value card) else "")
    +:+ "-x" +:+ str_int (copy_index card) +:+ ".png".
Proof.
  unfold filename_for. destruct (bool_decide (kind card = "number"));
    by rewrite !string_app_assoc.
Qed.

Lemma NoDup_fmap_inj_on {A B} (f : A → B) (l : list A) (x y : A) :
  NoDup (f <$> l) → x ∈ l → y ∈ l → f x = f y → x = y.
Proof.
  intros Hnd [i Hi]%list_elem_of_lookup [j Hj]%list_elem_of_lookup Hxy.
  assert (i = j) as ->; [|congruence].
  apply (NoDup_lookup (f <$> l) i j (f x)); [done|..];
    rewrite list_lookup_fmap; [by rewrite Hi|by rewrite Hj, Hxy].
Qed.

(** C3: the file names of the 108 cards of the deck are pairwise
    different, and the name of any card is
    [{color}_{kind}[_{value}]-x{copy_index}.png], which spells out the
    colour, the kind, the value of a number card and the copy index. *)
Theorem filename_for_unique_and_literal :
  (∃ deck : list Card,
     build_uno_deck = Ok deck ∧ length deck = 108%nat ∧
     NoDup (filename_for <$> deck) ∧
     ∀ c1 c2 : Card, c1 ∈ deck → c2 ∈ deck →
       filename_for c1 = filename_for c2 → c1 = c2) ∧
  (∀ card : Card,
     filename_for card =
       color card +:+ "_" +:+ kind card
       +:+ (if bool_decide (kind card = "number")
            then "_" +:+ str_opt_int (value card) else "")
       +:+ "-x" +:+ str_int (copy_index card) +:+ ".png" ∧
     contains (filename_for card) (color card) ∧
     contains (filename_for card) (kind card) ∧
     (kind card = "number" →
        contains (filename_for card) (str_opt_int (value card))) ∧
     contains (filename_for card) (str_int (copy_index card))).
Proof.
  split.
  - eexists. split; [vm_compute; reflexivity|].
    assert (∀ l : list Card, NoDup (filename_for <$> l) →
              NoDup (filename_for <$> l) ∧
              ∀ c1 c2, c1 ∈ l → c2 ∈ l →
                filename_for c1 = filename_for c2 → c1 = c2) as Hinj
      by (intros l Hl; split; [done|]; intros c1 c2;
          by apply NoDup_fmap_inj_on).
    split; [done|]. apply Hinj. compute_done.
  - intros card. rewrite filename_for_pattern. repeat split.
    + exists "". eexists. reflexivity.
    + exists (color card +:+ "_"). eexists.
      by rewrite string_app_assoc.
    + intros Hk. rewrite bool_decide_true by done.
      exists (color card +:+ "_" +:+ kind card +:+ "_"). eexists.
      by rewrite !string_app_assoc.
    + exists (color card +:+ "_" +:+ kind card
              +:+ (if bool_decide (kind card = "number")
                   then "_" +:+ str_opt_int (value card) else "")
              +:+ "-x").
      eexists. by rewrite !string_app_assoc.
Qed.

(** ** The export pipeline *)

Lemma build_uno_deck_head :
  ∃ rest : list Card,
    build_uno_deck = Ok (mkCard "red" "number" (Some 0) 1 :: rest).
Proof. eexists. vm_compute. reflexivity. Qed.

(** C9: in test mode with the early stop, a run writes one PNG, the first
    card's [red_number_0-x1.png] in the output directory, and stops. *)
Theorem test_mode_first_only_writes_one_png `{Platform} (img : Image) :
  test_mode environ = true →
  generate_first_only environ = true →
  test_background = Some img →
  let path := path_join (OUTPUT_DIR environ) "red_number_0-x1.png" in
  generate_all_cards world0 =
    (Ok [path],
     mkWorld [] [(path, render_card (mkCard "red" "number" (Some 0) 1) img)]
             [OUTPUT_DIR environ] 0).
Proof.
  intros Ht Hf Hbg path. destruct build_uno_deck_head as [rest Hdeck].
  unfold generate_all_cards, io_bind, ensure_dir, io_lift, load_test_background.
  rewrite Hdeck, Ht, Hbg. cbn [export_loop io_ret io_bind w_requests w_files
    w_dirs w_draws world0 app]. unfold io_bind, io_ret, save.
  rewrite Ht, Hf. reflexivity.
Qed.

Lemma test_mode_first_only_writes_one_png_witness :
  @generate_all_cards smoke_test_platform world0 =
    (Ok ["uno-cards-out/red_number_0-x1.png"],
     @mkWorld smoke_test_platform []
       [("uno-cards-out/red_number_0-x1.png",
         [mkCard "red" "number" (Some 0) 1])]
       ["uno-cards-out"] 0).
Proof.
  exact (@test_mode_first_only_writes_one_png smoke_test_platform []
           eq_refl eq_refl eq_refl).
Defined.

Lemma io_bind_requests `{Platform} {A B} (m : io A) (k : A → io B) (w : World) :
  requests_fixed (m w).2 →
  (∀ (a : A) (w' : World), requests_fixed w' → requests_fixed (k a w').2) →
  requests_fixed (io_bind m k w).2.
Proof.
  intros Hm Hk. unfold io_bind. destruct (m w) as [[a|e] w']; [|done].
  by apply Hk.
Qed.

Lemma export_loop_requests `{Platform} (test_bg : option Image)
    (deck : list Card) (saved : list string) (w : World) :
  requests_fixed w → requests_fixed (export_loop test_bg deck saved w).2.
Proof.
  revert saved w. induction deck as [|card deck IH]; intros saved w Hw;
    [done|].
  cbn [export_loop]. apply io_bind_requests.
  - destruct (test_mode environ).
    + by destruct test_bg.
    + apply io_bind_requests.
      * unfold prompt_for_card_io. cbn [snd].
        by destruct (bool_decide (color card = "wild")).
      * intros prompt w' Hw'. unfold gen_image_from_openai.
        destruct (client_bound environ); [|done].
        apply Forall_app. split; [done|]. by apply Forall_singleton.
  - intros art w' Hw'. apply io_bind_requests; [done|].
    intros _ w'' Hw''. destruct (generate_first_only environ); [done|].
    by apply IH.
Qed.

(** C8, as the code has it: the requests of a run all carry the model
    [gpt-image-1] and the size [1024x1024], whatever the environment
    configures; on a platform whose configured model is [dall-e-3] and
    whose configured size is the default [1024x1792], the one request of
    an early-stopped run carries neither. *)
Theorem gen_image_requests_ignore_configuration :
  (∀ P : Platform,
     Forall fixed_request (w_requests (@generate_all_cards P world0).2)) ∧
  @openai_model (@environ configured_platform) = "dall-e-3" ∧
  @openai_size (@environ configured_platform) = "1024x1792" ∧
  (req_model <$> w_requests (@generate_all_cards configured_platform world0).2)
    = ["gpt-image-1"] ∧
  (req_size <$> w_requests (@generate_all_cards configured_platform world0).2)
    = ["1024x1024"].
Proof.
  split; [|repeat split; vm_compute; reflexivity].
  intros P. unfold generate_all_cards.
  apply (@io_bind_requests P); [by apply Forall_nil|]. intros _ w Hw.
  apply (@io_bind_requests P); [done|]. intros deck w1 Hw1.
  apply (@io_bind_requests P).
  - destruct (test_mode environ); [|done].
    apply (@io_bind_requests P); [|done].
    unfold load_test_background. by destruct test_background.
  - intros test_bg w2 Hw2. by apply export_loop_requests.
Qed.

(** ** The page composer *)

Ltac Zify.zify_post_hook ::= Z.div_mod_to_equations.

Lemma page_sizes_small (m : nat) :
  (0 < m ≤ 9)%nat → page_sizes m = [m].
Proof.
  intros Hm. unfold page_sizes.
  destruct (decide (m = 9%nat)) as [->|Hne]; [done|].
  rewrite (Nat.div_small m 9), (Nat.mod_small m 9) by lia.
  destruct (Nat.eqb_spec m 0); [lia|done].
Qed.

Lemma page_sizes_step (m : nat) : page_sizes (9 + m) = 9%nat :: page_sizes m.
Proof.
  unfold page_sizes.
  assert (((9 + m) / 9 = S (m / 9))%nat) as -> by lia.
  assert (((9 + m) mod 9 = m mod 9)%nat) as -> by lia.
  done.
Qed.

Lemma page_sizes_length (m : nat) : length (page_sizes m) = ((m + 8) / 9)%nat.
Proof.
  unfold page_sizes. rewrite length_app, length_replicate.
  destruct (Nat.eqb_spec (m mod 9) 0); cbn [length]; lia.
Qed.

(** Card [k] of a paginated list is entry [k mod 9] of page [k / 9]. *)
Lemma reshape_page_lookup {A} (l : list A) (k : nat) :
  (k < length l)%nat →
  ∃ pg : list A,
    reshape (page_sizes (length l)) l !! (k / 9)%nat = Some pg ∧
    pg !! (k mod 9)%nat = l !! k.
Proof.
  remember (length l) as m eqn:Hm. revert l k Hm.
  induction (lt_wf m) as [m _ IH]. intros l k Hm Hk.
  destruct (decide (m ≤ 9)%nat) as [Hle|Hgt].
  - rewrite page_sizes_small by lia. cbn [reshape].
    rewrite (Nat.div_small k 9), (Nat.mod_small k 9) by lia.
    exists (take m l). split; [done|]. by rewrite take_ge by lia.
  - assert (page_sizes m = 9%nat :: page_sizes (m - 9)) as ->
      by (rewrite <- page_sizes_step; f_equal; lia).
    cbn [reshape].
    destruct (decide (k < 9)%nat) as [Hk9|Hk9].
    + rewrite (Nat.div_small k 9), (Nat.mod_small k 9) by lia.
      exists (take 9 l). split; [done|]. by rewrite lookup_take_lt by lia.
    + destruct (IH (m - 9)%nat ltac:(lia) (drop 9 l) (k - 9)%nat)
        as (pg & Hpg & Hlook); [by rewrite length_drop; lia|lia|].
      exists pg.
      assert ((k / 9 = S ((k - 9) / 9))%nat) as -> by lia.
      assert ((k mod 9 = (k - 9) mod 9)%nat) as -> by lia.
      split; [done|]. rewrite Hlook, lookup_drop. f_equal. lia.
Qed.

Section ComposerFacts.
Context {R : Type} `{Arith R}.
Local Open Scope list_scope.

Lemma drawings_cons L ph i p ps :
  drawings L ph i (p :: ps)
  = draw_card L ph (Z.of_nat i) p :: drawings L ph (S i) ps.
Proof.
  unfold drawings. cbn [imap]. rewrite Nat.add_0_r. f_equal.
  apply imap_ext. intros k q _. cbn. do 3 f_equal. lia.
Qed.

Lemma drawings_length L ph i ps : length (drawings L ph i ps) = length ps.
Proof. unfold drawings. by rewrite length_imap. Qed.

(** The loop fills the page it is given and cuts what follows into
    pages of nine. *)
Lemma compose_loop_pages L ph (n : Z) (ps : list string) (i : nat)
    (c : Canvas R) :
  ps ≠ [] →
  Z.of_nat (i + length ps) = n →
  length (page c) = (i mod 9)%nat →
  canvas_save (compose_loop L ph n (Z.of_nat i) ps c)
  = (pages c ++ reshape (page_sizes (i mod 9 + length ps))
                        (page c ++ drawings L ph i ps))%list.
Proof.
  revert i c. induction ps as [|p ps IH]; intros i c Hne Hn Hpage; [done|].
  rewrite drawings_cons. cbn [compose_loop length].
  unfold cards_per_page, cards_per_row, cards_per_column.
  change (3 * 3) with 9.
  destruct ps as [|p' ps].
  - (* the last image: no new page *)
    assert ((Z.of_nat i + 1 <? n) = false) as -> by (cbn [length] in Hn; lia).
    rewrite andb_false_r. cbn [compose_loop drawings imap].
    unfold canvas_save, drawImage. cbn [page pages showPage].
    destruct (page c ++ [draw_card L ph (Z.of_nat i) p]) eqn:Hd;
      [by destruct (page c)|]. rewrite <- Hd.
    rewrite page_sizes_small by (cbn [length]; lia). cbn [reshape].
    rewrite take_ge by (rewrite length_app, Hpage; cbn [length]; lia). done.
  - assert ((Z.of_nat i + 1 <? n) = true) as -> by (cbn [length] in Hn; lia).
    rewrite andb_true_r.
    replace (Z.of_nat i + 1) with (Z.of_nat (S i)) by lia.
    destruct (Z.eqb_spec (Z.of_nat (S i) `mod` 9) 0) as [Hfull|Hfull].
    + (* the ninth image of a page, and more to come: a new page *)
      rewrite IH; [|done|cbn [length] in *; lia|cbn [page showPage length]; lia].
      cbn [pages page showPage drawImage app].
      assert ((S i mod 9 = 0)%nat) as -> by lia.
      assert ((i mod 9 = 8)%nat) as Hi by lia. rewrite Hi in *.
      change (8 + S (length (p' :: ps)))%nat
        with (9 + length (p' :: ps))%nat.
      rewrite page_sizes_step. cbn [reshape].
      set (d := draw_card L ph (Z.of_nat i) p).
      set (rest := drawings L ph (S i) (p' :: ps)).
      assert (page c ++ d :: rest = (page c ++ [d]) ++ rest) as ->
        by (by rewrite <- (assoc_L (++))).
      rewrite take_app_length', drop_app_length'
        by (rewrite length_app, Hpage; cbn [length]; lia).
      rewrite <- (assoc_L (++)). done.
    + rewrite IH; [|done|cbn [length] in *; lia|].
      * cbn [pages page drawImage]. rewrite <- (assoc_L (++)).
        cbn [app length].
        by replace (S i mod 9 + S (length ps))%nat
          with (i mod 9 + S (S (length ps)))%nat by lia.
      * cbn [page drawImage]. rewrite length_app, Hpage. cbn [length]. lia.
Qed.

End ComposerFacts.

Section Pagination.
Context {R : Type} `{Arith R}.
Local Open Scope list_scope.

Lemma images_to_pdf_pages (pagesize : R * R) (image_paths : list string)
    (L : Layout R) :
  image_paths ≠ [] →
  layout pagesize.1 pagesize.2 = Ok L →
  images_to_pdf pagesize image_paths
  = Ok (reshape (page_sizes (length image_paths))
          (drawings L pagesize.2 0 image_paths)).
Proof.
  intros Hne HL. destruct pagesize as [pw ph]. cbn [fst snd] in *.
  unfold images_to_pdf. rewrite HL. cbn [mbind result_bind mret result_ret].
  f_equal.
  by rewrite (compose_loop_pages L ph (len image_paths) image_paths 0
                (mkCanvas [] [])).
Qed.

Lemma drawings_lookup (L : Layout R) (ph : R) (ps : list string) (i : nat)
    (p : string) :
  ps !! i = Some p →
  drawings L ph 0 ps !! i = Some (draw_card L ph (Z.of_nat i) p).
Proof.
  intros Hp. unfold drawings. by rewrite list_lookup_imap, Hp.
Qed.

End Pagination.

(** C4: card [i] is drawn at row [(i mod 9) div 3] and column
    [(i mod 9) mod 3], with [y] counted upwards from the bottom of the page;
    a new page starts after every ninth card unless it is the last one, so
    the pages are the drawings cut into nines, [ceil(n / 9)] of them; for
    108 images that is 12 pages, with image 8 last on the first page and
    image 9 first on the second. *)
Theorem images_to_pdf_pagination {R : Type} `{Arith R} (pagesize : R * R)
    (image_paths : list string) (L : Layout R) :
  image_paths ≠ [] →
  layout pagesize.1 pagesize.2 = Ok L →
  let n := length image_paths in
  let ph := pagesize.2 in
  let cell (i : Z) (p : string) :=
    mkDraw p (cell_x L ((i `mod` 9) `mod` 3)) (cell_y L ph ((i `mod` 9) `div` 3))
           (card_width L) (card_height L) in
  ∃ doc : list (list (Draw R)),
    images_to_pdf pagesize image_paths = Ok doc ∧
    (* a new page after every ninth card, unless it is the last *)
    doc = reshape (replicate (n / 9) 9%nat
                   ++ (if (n mod 9 =? 0)%nat then [] else [(n mod 9)%nat]))%list
                  (imap (λ i p, cell (Z.of_nat i) p) image_paths) ∧
    length doc = ((n + 8) / 9)%nat ∧
    (* where card [i] is *)
    (∀ (i : nat) (p : string), image_paths !! i = Some p →
       ∃ pg : list (Draw R),
         doc !! (i / 9)%nat = Some pg ∧
         pg !! (i mod 9)%nat = Some (cell (Z.of_nat i) p)) ∧
    (* [y] is the height of the cell's lower edge above the page bottom *)
    (∀ row : Z,
       cell_y L ph row
       = sub ph (add (mul (of_int (row + 1)) (spacing_vertical L))
                     (mul (of_int (row + 1)) (card_height L)))) ∧
    (∀ (LQ : Layout Q) (phQ : Q) (row : Z),
       (cell_y LQ phQ row + card_height LQ
        + (inject_Z (row + 1) * spacing_vertical LQ
           + inject_Z row * card_height LQ) == phQ)%Q ∧
       ((0 < spacing_vertical LQ + card_height LQ)%Q →
        (cell_y LQ phQ (row + 1) < cell_y LQ phQ row)%Q)) ∧
    (* the deck of 108 images *)
    (n = 108%nat →
     length doc = 12%nat ∧
     ∃ (pg1 pg2 : list (Draw R)) (p8 p9 : string),
       image_paths !! 8%nat = Some p8 ∧ image_paths !! 9%nat = Some p9 ∧
       doc !! 0%nat = Some pg1 ∧ doc !! 1%nat = Some pg2 ∧
       length pg1 = 9%nat ∧
       last pg1 = Some (cell 8 p8) ∧ head pg2 = Some (cell 9 p9)).
Proof.
  intros Hne HL n ph cell.
  assert (∀ i p, draw_card L ph i p = cell i p) as Hcell by done.
  assert (drawings L ph 0 image_paths
          = imap (λ i p, cell (Z.of_nat i) p) image_paths) as Hds by done.
  eexists. split; [by apply images_to_pdf_pages|].
  fold ph n. rewrite Hds. fold (page_sizes n).
  set (ds := imap _ image_paths).
  assert (length ds = n) as Hlen by (subst ds; by rewrite length_imap).
  assert (∀ i p, image_paths !! i = Some p → ds !! i = Some (cell (Z.of_nat i) p))
    as Hlook by (intros i p Hp; subst ds; by rewrite list_lookup_imap, Hp).
  split; [done|]. split; [by rewrite length_reshape, page_sizes_length|].
  split; [|split; [done|split]].
  - intros i p Hp.
    destruct (reshape_page_lookup ds i) as (pg & Hpg & Hi).
    { rewrite Hlen. by eapply lookup_lt_Some. }
    exists pg. rewrite <- Hlen. split; [done|]. rewrite Hi. by apply Hlook.
  - intros LQ phQ row. unfold cell_y. cbn [sub add mul of_int Q_arith].
    rewrite !inject_Z_plus. split; [ring|]. intros Hpos.
    change (inject_Z 1) with 1%Q. lra.
  - intros Hn. rewrite length_reshape, page_sizes_length, Hn.
    split; [done|].
    destruct (lookup_lt_is_Some_2 image_paths 8) as [p8 Hp8]; [lia|].
    destruct (lookup_lt_is_Some_2 image_paths 9) as [p9 Hp9]; [lia|].
    exists (take 9 ds), (take 9 (drop 9 ds)), p8, p9.
    change (page_sizes 108) with (replicate 12 9%nat).
    split; [done|]. split; [done|]. split; [done|]. split; [done|].
    assert (length (take 9 ds) = 9%nat) as Ht
      by (rewrite length_take; lia).
    split; [done|]. split.
    + rewrite last_lookup, Ht. cbn [pred].
      rewrite lookup_take_lt by lia. by apply (Hlook 8%nat).
    + rewrite head_lookup, lookup_take_lt, lookup_drop by lia.
      by apply (Hlook 9%nat).
Qed.

(** ** The page layout *)

Section LayoutQ.
Local Open Scope Q_scope.

Lemma Qeq_bool_false (x y : Q) : ¬ (x == y) → Qeq_bool x y = false.
Proof.
  intros Hne. destruct (Qeq_bool x y) eqn:E; [|done].
  by apply Qeq_bool_iff in E.
Qed.

Lemma truediv_Q (a b : Q) : ¬ (b == 0) → truediv a b = Ok (a / b).
Proof.
  intros Hb. unfold truediv. cbn [zerob div Q_arith].
  by rewrite Qeq_bool_false.
Qed.

Lemma Qdiv_lt_inv (a b c : Q) : 0 < b → c < a / b → c * b < a.
Proof.
  intros Hb Hc. apply Qnot_le_lt. intros Hle.
  apply (Qlt_not_le _ _ Hc). by apply Qle_shift_div_r.
Qed.

Lemma Qdiv_le_inv (a b c : Q) : 0 < b → a / b <= c → a <= c * b.
Proof.
  intros Hb Hc. apply Qnot_lt_le. intros Hlt.
  apply (Qle_not_lt _ _ Hc). by apply Qlt_shift_div_l.
Qed.

Lemma available_width_Q (pw : Q) : available_width pw == (93 # 100) * pw.
Proof.
  unfold available_width, margin, spacing, decimal.
  cbn [sub add mul div of_int Q_arith]. unfold inject_Z. field.
Qed.

Lemma available_height_Q (pw ph : Q) :
  available_height pw ph == ph - (7 # 100) * pw.
Proof.
  unfold available_height, margin, spacing, decimal.
  cbn [sub add mul div of_int Q_arith]. unfold inject_Z. field.
Qed.

Lemma candidate_positive (pw ph : Q) :
  0 < pw → (7 # 100) * pw < ph →
  0 < candidate_width pw ∧ 0 < candidate_height pw ph.
Proof.
  intros Hpw Hph. unfold candidate_width, candidate_height. split;
    (apply Qlt_shift_div_l; [done|]);
    rewrite ?available_width_Q, ?available_height_Q; lra.
Qed.

Lemma target_aspect_Q : target_aspect == 825 # 1275.
Proof. reflexivity. Qed.

(** [layout] on rationals: which dimension is kept, which is shrunk. *)
Lemma layout_Q (pw ph : Q) :
  0 < pw → (7 # 100) * pw < ph →
  let cw0 := candidate_width pw in
  let ch0 := candidate_height pw ph in
  ∃ cw ch : Q,
    layout pw ph
    = Ok (mkLayout cw ch ((pw - 3 * cw) / 4) ((ph - 3 * ch) / 4)) ∧
    ((target_aspect < cw0 / ch0 ∧ cw = ch0 * target_aspect ∧ ch = ch0) ∨
     (cw0 / ch0 <= target_aspect ∧ cw = cw0 ∧ ch = cw0 / target_aspect)).
Proof.
  intros Hpw Hph cw0 ch0.
  destruct (candidate_positive pw ph Hpw Hph) as [Hcw0 Hch0].
  fold cw0 ch0 in Hcw0, Hch0.
  unfold layout, cards_per_row, cards_per_column.
  rewrite !truediv_Q by done. cbn [mbind result_bind].
  change (@of_int Q Q_arith 3%Z) with 3.
  fold (candidate_width pw) (candidate_height pw ph). fold cw0 ch0.
  rewrite (truediv_Q cw0 ch0) by lra. cbn [mbind result_bind].
  change (@of_int Q _ 825 / @of_int Q _ 1275) with target_aspect.
  pose proof target_aspect_Q as Ht.
  cbn [gtb Q_arith mul sub].
  destruct (Qle_bool (cw0 / ch0) target_aspect) eqn:Hg; cbn [negb].
  - rewrite (truediv_Q cw0 target_aspect) by (rewrite Ht; lra).
    cbn [mbind result_bind mret result_ret fst snd].
    rewrite !truediv_Q by done. cbn [mbind result_bind mret result_ret].
    exists cw0, (cw0 / target_aspect). split; [reflexivity|]. right.
    split; [by apply Qle_bool_iff|done].
  - cbn [mbind result_bind mret result_ret fst snd].
    rewrite !truediv_Q by done. cbn [mbind result_bind mret result_ret].
    exists (ch0 * target_aspect), ch0. split; [reflexivity|]. left.
    split; [|done]. apply Qnot_le_lt. intros Hle.
    apply Qle_bool_iff in Hle. by rewrite Hle in Hg.
Qed.

(** With the recomputed spacing the gaps around and between the cells
    are equal. *)
Lemma equal_gaps (pw ph cw ch : Q) :
  let L := mkLayout cw ch ((pw - 3 * cw) / 4) ((ph - 3 * ch) / 4) in
  cell_x L 0 == spacing_horizontal L ∧
  (∀ col : Z,
     cell_x L (col + 1) - (cell_x L col + card_width L)
     == spacing_horizontal L) ∧
  pw - (cell_x L 2 + card_width L) == spacing_horizontal L ∧
  ph - (cell_y L ph 0 + card_height L) == spacing_vertical L ∧
  (∀ row : Z,
     cell_y L ph row - (cell_y L ph (row + 1) + card_height L)
     == spacing_vertical L) ∧
  cell_y L ph 2 == spacing_vertical L.
Proof.
  intros L. unfold cell_x, cell_y, L.
  cbn [add sub mul of_int Q_arith card_width card_height
       spacing_horizontal spacing_vertical].
  repeat split; try intros ?; rewrite ?inject_Z_plus; unfold inject_Z;
    cbn [Z.add Pos.add Pos.succ]; field.
Qed.

End LayoutQ.

(** C5: the candidate cell is locked to the aspect 825:1275 by shrinking
    the dimension that overflows, and the spacing is recomputed so that
    the three by three block has equal gaps and sits centred: with exact
    arithmetic for every page that leaves room for a cell, and within
    [2^-40] for the floats of the A4 page, where the gap at the left
    (about 19.4 points) is not the initial margin (about 11.9). *)
Theorem layout_locks_aspect_and_centres :
  (∀ pw ph : Q, (0 < pw)%Q → ((7 # 100) * pw < ph)%Q →
     ∃ L : Layout Q,
       layout pw ph = Ok L ∧
       (0 < card_width L ∧ 0 < card_height L)%Q ∧
       (card_width L / card_height L == 825 # 1275)%Q ∧
       (* the dimension that overflows is shrunk, the other kept *)
       ((card_width L < candidate_width pw ∧
         card_height L = candidate_height pw ph)%Q ∨
        (card_width L = candidate_width pw ∧
         card_height L <= candidate_height pw ph)%Q) ∧
       (* spacing recomputed from the locked cell, not from the margin *)
       spacing_horizontal L = ((pw - 3 * card_width L) / 4)%Q ∧
       spacing_vertical L = ((ph - 3 * card_height L) / 4)%Q ∧
       (* equal gaps: left, between columns, right, top, between rows,
          bottom *)
       (cell_x L 0 == spacing_horizontal L)%Q ∧
       (∀ col : Z,
          cell_x L (col + 1) - (cell_x L col + card_width L)
          == spacing_horizontal L)%Q ∧
       (pw - (cell_x L 2 + card_width L) == spacing_horizontal L)%Q ∧
       (ph - (cell_y L ph 0 + card_height L) == spacing_vertical L)%Q ∧
       (∀ row : Z,
          cell_y L ph row - (cell_y L ph (row + 1) + card_height L)
          == spacing_vertical L)%Q ∧
       (cell_y L ph 2 == spacing_vertical L)%Q) ∧
  (∃ L : Layout float,
     let pw := (@A4 float _).1 in
     let ph := (@A4 float _).2 in
     let cw := card_width L in
     let ch := card_height L in
     let sh := spacing_horizontal L in
     let sv := spacing_vertical L in
     layout pw ph = Ok L ∧
     close (cw / ch) (825 / 1275) = true ∧
     PrimFloat.ltb cw (div (available_width pw) 3) = true ∧
     PrimFloat.eqb ch (div (available_height pw ph) 3) = true ∧
     close (cell_x L 0) sh = true ∧
     close (cell_x L 1 - (cell_x L 0 + cw)) sh = true ∧
     close (cell_x L 2 - (cell_x L 1 + cw)) sh = true ∧
     close (pw - (cell_x L 2 + cw)) sh = true ∧
     close (ph - (cell_y L ph 0 + ch)) sv = true ∧
     close (cell_y L ph 0 - (cell_y L ph 1 + ch)) sv = true ∧
     close (cell_y L ph 1 - (cell_y L ph 2 + ch)) sv = true ∧
     close (cell_y L ph 2) sv = true ∧
     PrimFloat.ltb (margin pw) sh = true)%float.
Proof.
  split.
  - intros pw ph Hpw Hph.
    destruct (candidate_positive pw ph Hpw Hph) as [Hcw0 Hch0].
    destruct (layout_Q pw ph Hpw Hph) as (cw & ch & HL & Hcase).
    pose proof target_aspect_Q as Ht.
    pose proof (equal_gaps pw ph cw ch) as Hgaps. cbv zeta in Hgaps.
    eexists. split; [exact HL|].
    cbn [card_width card_height spacing_horizontal spacing_vertical].
    assert ((0 < cw)%Q ∧ (0 < ch)%Q ∧ (cw / ch == 825 # 1275)%Q ∧
            (((cw < candidate_width pw)%Q ∧ ch = candidate_height pw ph) ∨
             (cw = candidate_width pw ∧ (ch <= candidate_height pw ph)%Q)))
      as (Hcw & Hch & Hratio & Hshrink).
    { destruct Hcase as [(Hgt & -> & ->)|(Hle & -> & ->)].
      - assert (0 < candidate_height pw ph * target_aspect)%Q as Hpos
          by (rewrite Ht; lra).
        split; [done|]. split; [done|]. split.
        + rewrite <- Ht. field. lra.
        + left. split; [|done]. rewrite Qmult_comm.
          by apply Qdiv_lt_inv.
      - assert (0 < candidate_width pw / target_aspect)%Q as Hpos
          by (apply Qlt_shift_div_l; rewrite Ht; lra).
        split; [done|]. split; [done|]. split.
        + rewrite <- Ht. field. split; [rewrite Ht|]; lra.
        + right. split; [done|]. apply Qle_shift_div_r; [rewrite Ht; lra|].
          rewrite Qmult_comm. by apply Qdiv_le_inv. }
    repeat split; try done; apply Hgaps.
  - eexists. cbv zeta. split; [vm_compute; reflexivity|].
    repeat split; vm_compute; reflexivity.
Qed.

Lemma layout_locks_aspect_and_centres_witness :
  ∃ L : Layout Q,
    layout (@A4 Q _).1 (@A4 Q _).2 = Ok L ∧
    (card_width L / card_height L == 825 # 1275)%Q.
Proof.
  destruct (proj1 layout_locks_aspect_and_centres (@A4 Q _).1 (@A4 Q _).2)
    as (L & HL & _ & Hratio & _); [reflexivity..|].
  exists L. split; [exact HL|exact Hratio].
Defined.

Lemma images_to_pdf_pagination_witness :
  ∃ doc : list (list (Draw float)),
    images_to_pdf (@A4 float _) (replicate 108 "card.png") = Ok doc ∧
    length doc = 12%nat.
Proof.
  destruct (layout (@A4 float _).1 (@A4 float _).2) as [L|e] eqn:HL;
    [|vm_compute in HL; discriminate].
  destruct (images_to_pdf_pagination (@A4 float _) (replicate 108 "card.png")
              L ltac:(discriminate) HL)
    as (doc & Hdoc & _ & Hlen & _).
  exists doc. split; [exact Hdoc|exact Hlen].
Defined.

(** ** Float literals and a full run *)

(** On floats the quotients of [decimal] are the literals of the program:
    [0.02], [0.015], and reportlab's [2.54] and [0.1]. *)
Lemma float_literals :
  @decimal float _ 2 100 = 0x1.47ae147ae147bp-6%float ∧
  @decimal float _ 15 1000 = 0x1.eb851eb851eb8p-7%float ∧
  @decimal float _ 254 100 = 0x1.451eb851eb852p+1%float ∧
  @decimal float _ 1 10 = 0x1.999999999999ap-4%float.
Proof. repeat split; vm_compute; reflexivity. Qed.

(** The path and the image written for a card in test mode. *)
Lemma export_loop_test_mode `{Platform} (img : Image) (deck : list Card)
    (saved : list string) (w : World) :
  test_mode environ = true →
  generate_first_only environ = false →
  export_loop (Some img) deck saved w =
    (Ok (saved ++ ((λ c, path_join (OUTPUT_DIR environ) (filename_for c)) <$> deck))%list,
     mkWorld (w_requests w)
       (w_files w ++ ((λ c, (path_join (OUTPUT_DIR environ) (filename_for c),
                             render_card c img)) <$> deck))%list
       (w_dirs w) (w_draws w)).
Proof.
  intros Ht Hf. revert saved w.
  induction deck as [|card deck IH]; intros saved w.
  - cbn [export_loop fmap list_fmap]. unfold io_ret.
    rewrite !app_nil_r. by destruct w.
  - cbn [export_loop]. rewrite Ht, Hf. unfold io_bind, io_ret, save.
    rewrite IH. cbn [w_requests w_files w_dirs w_draws fmap list_fmap].
    unfold append. by rewrite <- !(assoc_L (++)).
Qed.

(** In test mode without the early stop a run writes the 108 PNG files of
    the deck, in deck order and under different names, sends no request,
    and the page composer lays them out on 12 pages. *)
Theorem full_test_run `{Platform} {R : Type} `{Arith R} (img : Image)
    (pagesize : R * R) (L : Layout R) :
  test_mode environ = true →
  generate_first_only environ = false →
  test_background = Some img →
  layout pagesize.1 pagesize.2 = Ok L →
  ∃ (paths : list string) (w : World) (doc : list (list (Draw R))),
    generate_all_cards world0 = (Ok paths, w) ∧
    length paths = 108%nat ∧
    (w_files w).*1 = paths ∧
    w_requests w = [] ∧
    (∃ deck : list Card,
       build_uno_deck = Ok deck ∧
       paths = (λ c, path_join (OUTPUT_DIR environ) (filename_for c)) <$> deck) ∧
    images_to_pdf pagesize paths = Ok doc ∧
    length doc = 12%nat ∧
    Forall (λ pg, length pg = 9%nat) doc.
Proof.
  intros Ht Hf Hbg HL.
  destruct build_uno_deck as [deck|e] eqn:Hdeck; [|by vm_compute in Hdeck].
  assert (length deck = 108%nat) as Hlen
    by (vm_compute in Hdeck; by injection Hdeck as <-).
  set (paths := (λ c, path_join (OUTPUT_DIR environ) (filename_for c)) <$> deck).
  assert (length paths = 108%nat) as Hpaths
    by (subst paths; by rewrite length_fmap).
  eexists paths, _, _. split.
  { unfold generate_all_cards, io_bind, ensure_dir, io_lift,
      load_test_background.
    rewrite Hdeck, Ht, Hbg. unfold io_ret.
    by rewrite export_loop_test_mode. }
  cbn [w_files w_requests world0 app]. split; [done|]. split.
  { subst paths. rewrite <- list_fmap_compose. by apply list_fmap_ext. }
  split; [done|]. split; [by exists deck|].
  split; [apply images_to_pdf_pages; [by destruct paths|done]|].
  rewrite Hpaths. change (page_sizes 108) with (replicate 12 9%nat).
  split; [by rewrite length_reshape|].
  set (ds := drawings L pagesize.2 0 paths).
  assert (length ds = 108%nat) as Hds
    by (subst ds; by rewrite drawings_length).
  cbn [replicate reshape].
  repeat (apply Forall_cons; split;
          [rewrite length_take, ?length_drop, Hds; reflexivity|]).
  by apply Forall_nil.
Qed.

Lemma full_test_run_witness :
  ∃ paths : list string,
    (@generate_all_cards full_test_platform world0).1 = Ok paths ∧
    length paths = 108%nat.
Proof.
  destruct (layout (@A4 float _).1 (@A4 float _).2) as [L|e] eqn:HL;
    [|vm_compute in HL; discriminate].
  destruct (@full_test_run full_test_platform float _ [] (@A4 float _) L)
    as (paths & w & doc & Hrun & Hlen & _);
    [vm_compute; reflexivity..|exact HL|].
  exists paths. split; [|exact Hlen].
  exact (f_equal fst Hrun).
Defined.

(** ** The border colour, on every well-formed string *)

Lemma all_ascii_complete (c : ascii) : c ∈ all_ascii.
Proof.
  unfold all_ascii. apply list_elem_of_fmap. exists (nat_of_ascii c).
  split; [by rewrite ascii_nat_embedding|].
  apply elem_of_seq. pose proof (nat_ascii_bounded c). lia.
Qed.

(** A property of characters holds for all when its check passes on each. *)
Lemma forall_ascii (P : ascii → bool) :
  forallb P all_ascii = true → ∀ c, P c = true.
Proof.
  intros HP c. rewrite forallb_forall in HP. apply HP.
  apply list_elem_of_In, all_ascii_complete.
Qed.

Lemma hex_pair (c1 c2 : ascii) :
  is_hex_digit c1 = true → is_hex_digit c2 = true →
  py_int (pair_string c1 c2) 16 = Ok (16 * digit_value c1 + digit_value c2).
Proof.
  intros H1 H2.
  assert (forallb (λ a, forallb (λ b,
            implb (is_hex_digit a && is_hex_digit b)
                  (bool_decide (py_int (pair_string a b) 16
                                = Ok (16 * digit_value a + digit_value b))))
            all_ascii) all_ascii = true) as Hall by (vm_compute; reflexivity).
  pose proof (forall_ascii _ (forall_ascii _ Hall c1) c2) as Hc.
  cbv beta in Hc. rewrite H1, H2 in Hc. cbn [andb implb] in Hc.
  by apply bool_decide_eq_true in Hc.
Qed.

Lemma hex_digit_not_space (c : ascii) :
  is_hex_digit c = true → isspace c = false.
Proof.
  intros Hc.
  pose proof (forall_ascii (λ a, implb (is_hex_digit a) (negb (isspace a)))
                ltac:(vm_compute; reflexivity) c) as H.
  cbv beta in H. rewrite Hc in H. by destruct (isspace c).
Qed.

Lemma hex_digit_value_bounds (c : ascii) :
  is_hex_digit c = true → 0 ≤ digit_value c < 16.
Proof.
  intros Hc.
  pose proof (forall_ascii (λ a, implb (is_hex_digit a)
                                   ((0 <=? digit_value a) && (digit_value a <? 16)))
                ltac:(vm_compute; reflexivity) c) as H.
  cbv beta in H. rewrite Hc in H. cbn [implb] in H. lia.
Qed.

Lemma rstrip_with_app_last (f : ascii → bool) (s : string) (c : ascii) :
  f c = false →
  rstrip_with f (s +:+ String c "") = s +:+ String c "".
Proof.
  intros Hc. induction s as [|a s IH].
  - change ("" +:+ String c "") with (String c ""). cbn [rstrip_with].
    by rewrite Hc.
  - change (String a s +:+ String c "") with (String a (s +:+ String c "")).
    cbn [rstrip_with]. rewrite IH.
    by destruct s.
Qed.

(** C6 for every string [#rrggbb] of hexadecimal digits: each pair of
    digits is read as one byte. *)
Theorem parse_border_color_hex6 (c1 c2 c3 c4 c5 c6 : ascii) :
  Forall (λ c, is_hex_digit c = true) [c1; c2; c3; c4; c5; c6] →
  let byte (a b : ascii) := 16 * digit_value a + digit_value b in
  parse_border_color
    (String "#" (string_of_list_ascii [c1; c2; c3; c4; c5; c6]))
  = (byte c1 c2, byte c3 c4, byte c5 c6) ∧
  Forall (λ v, 0 ≤ v ≤ 255) [byte c1 c2; byte c3 c4; byte c5 c6].
Proof.
  intros Hhex byte.
  apply Forall_cons in Hhex as [H1 Hhex]. apply Forall_cons in Hhex as [H2 Hhex].
  apply Forall_cons in Hhex as [H3 Hhex]. apply Forall_cons in Hhex as [H4 Hhex].
  apply Forall_cons in Hhex as [H5 Hhex]. apply Forall_cons in Hhex as [H6 _].
  split.
  - unfold parse_border_color, parse_border_color_try.
    set (s := String "#" _).
    assert (strip s = s) as ->.
    { unfold strip.
      change (lstrip_with isspace s) with s.
      change s with (String "#" (string_of_list_ascii [c1; c2; c3; c4; c5])
                     +:+ String c6 "").
      by rewrite rstrip_with_app_last by by apply hex_digit_not_space. }
    change (startswith s "#") with true. cbv iota.
    change (slice (hex_color_of s) 0 2) with (pair_string c1 c2).
    change (slice (hex_color_of s) 2 4) with (pair_string c3 c4).
    change (slice (hex_color_of s) 4 6) with (pair_string c5 c6).
    by rewrite !hex_pair by done.
  - pose proof (hex_digit_value_bounds _ H1). pose proof (hex_digit_value_bounds _ H2).
    pose proof (hex_digit_value_bounds _ H3). pose proof (hex_digit_value_bounds _ H4).
    pose proof (hex_digit_value_bounds _ H5). pose proof (hex_digit_value_bounds _ H6).
    subst byte. repeat (apply Forall_cons; split; [lia|]). by apply Forall_nil.
Qed.

Lemma parse_border_color_hex6_witness :
  parse_border_color "#1a2B3c" = (26, 43, 60).
Proof.
  refine (proj1 (parse_border_color_hex6 "1" "a" "2" "B" "3" "c" _)).
  repeat (apply Forall_cons; split; [reflexivity|]). constructor.
Defined.

(** The short form [#rgb] of hexadecimal digits: each digit is doubled,
    so it counts seventeen times. *)
Theorem parse_border_color_hex3 (c1 c2 c3 : ascii) :
  Forall (λ c, is_hex_digit c = true) [c1; c2; c3] →
  parse_border_color (String "#" (string_of_list_ascii [c1; c2; c3]))
  = (17 * digit_value c1, 17 * digit_value c2, 17 * digit_value c3) ∧
  parse_border_color (String "#" (string_of_list_ascii [c1; c2; c3]))
  = parse_border_color
      (String "#" (string_of_list_ascii [c1; c1; c2; c2; c3; c3])).
Proof.
  intros Hhex.
  assert (parse_border_color (String "#" (string_of_list_ascii [c1; c2; c3]))
          = parse_border_color
              (String "#" (string_of_list_ascii [c1; c1; c2; c2; c3; c3])))
    as Hsame.
  { apply Forall_cons in Hhex as [H1 Hhex]. apply Forall_cons in Hhex as [H2 Hhex].
    apply Forall_cons in Hhex as [H3 _].
    unfold parse_border_color, parse_border_color_try.
    set (s := String "#" (string_of_list_ascii [c1; c2; c3])).
    set (t := String "#" (string_of_list_ascii [c1; c1; c2; c2; c3; c3])).
    assert (strip s = s) as ->.
    { unfold strip. change (lstrip_with isspace s) with s.
      change s with (String "#" (string_of_list_ascii [c1; c2]) +:+ String c3 "").
      by rewrite rstrip_with_app_last by by apply hex_digit_not_space. }
    assert (strip t = t) as ->.
    { unfold strip. change (lstrip_with isspace t) with t.
      change t with (String "#" (string_of_list_ascii [c1; c1; c2; c2; c3])
                     +:+ String c3 "").
      by rewrite rstrip_with_app_last by by apply hex_digit_not_space. }
    reflexivity. }
  split; [|done]. rewrite Hsame.
  destruct (parse_border_color_hex6 c1 c1 c2 c2 c3 c3) as [-> _].
  - apply Forall_cons in Hhex as [H1 Hhex]. apply Forall_cons in Hhex as [H2 Hhex].
    apply Forall_cons in Hhex as [H3 _].
    repeat (apply Forall_cons; split; [done|]). by apply Forall_nil.
  - f_equal; [f_equal|]; lia.
Qed.

Lemma parse_border_color_hex3_witness :
  parse_border_color "#fA0" = (255, 170, 0).
Proof.
  refine (proj1 (parse_border_color_hex3 "f" "A" "0" _)).
  repeat (apply Forall_cons; split; [reflexivity|]). constructor.
Defined.

Lemma string_app_nil_r (a : string) : a +:+ "" = a.
Proof.
  induction a as [|x a IH]; [done|].
  change (String x (a +:+ "") = String x a). by rewrite IH.
Qed.

Lemma all_chars_cons (f : ascii → bool) (c : ascii) (s : string) :
  all_chars f (String c s) = f c && all_chars f s.
Proof. done. Qed.

Lemma split_go_no_sep (P : ascii → bool) (sep : ascii) (acc a : string) :
  P sep = false → all_chars P a = true →
  split_go sep acc a = [acc +:+ a].
Proof.
  intros Hsep. revert acc. induction a as [|c a IH]; intros acc Ha.
  - by rewrite string_app_nil_r.
  - rewrite all_chars_cons in Ha. apply andb_true_iff in Ha as [Hc Ha].
    cbn [split_go]. destruct (Ascii.eqb_spec c sep) as [->|_]; [congruence|].
    rewrite IH by done. by rewrite string_app_assoc.
Qed.

Lemma split_go_app (P : ascii → bool) (sep : ascii) (acc a rest : string) :
  P sep = false → all_chars P a = true →
  split_go sep acc (a +:+ String sep rest)
  = (acc +:+ a) :: split_go sep "" rest.
Proof.
  intros Hsep. revert acc. induction a as [|c a IH]; intros acc Ha.
  - change ("" +:+ String sep rest) with (String sep rest).
    cbn [split_go]. rewrite Ascii.eqb_refl. by rewrite string_app_nil_r.
  - rewrite all_chars_cons in Ha. apply andb_true_iff in Ha as [Hc Ha].
    change (String c a +:+ String sep rest)
      with (String c (a +:+ String sep rest)).
    cbn [split_go]. destruct (Ascii.eqb_spec c sep) as [->|_]; [congruence|].
    rewrite IH by done. by rewrite string_app_assoc.
Qed.

Lemma last_char (P : ascii → bool) (s : string) :
  s ≠ "" → all_chars P s = true →
  ∃ (u : string) (d : ascii), s = u +:+ String d "" ∧ P d = true.
Proof.
  induction s as [|c s IH]; [done|]. intros _ Hs.
  rewrite all_chars_cons in Hs. apply andb_true_iff in Hs as [Hc Hs].
  destruct s as [|c' s].
  - by exists "", c.
  - destruct IH as (u & d & Hu & Hd); [done..|].
    exists (String c u), d. split; [|done]. by rewrite Hu.
Qed.

Lemma dec_digit_facts (c : ascii) :
  is_dec_digit c = true → isspace c = false ∧ c ≠ "#"%char ∧ c ≠ ","%char.
Proof.
  intros Hc.
  pose proof (forall_ascii
    (λ a, implb (is_dec_digit a)
            (negb (isspace a) && negb (Ascii.eqb a "#") && negb (Ascii.eqb a ",")))
    ltac:(vm_compute; reflexivity) c) as H.
  cbv beta in H. rewrite Hc in H. cbn [implb] in H.
  apply andb_true_iff in H as [H H3]. apply andb_true_iff in H as [H1 H2].
  repeat split.
  - by destruct (isspace c).
  - intros ->. done.
  - intros ->. done.
Qed.

(** What [str] gives for a byte: decimal digits that [int] reads back. *)
Lemma str_int_byte (r : Z) :
  0 ≤ r ≤ 255 →
  str_int r ≠ "" ∧ all_chars is_dec_digit (str_int r) = true ∧
  py_int (str_int r) 10 = Ok r.
Proof.
  intros Hr.
  assert (Forall (λ v, str_int v ≠ "" ∧
                       all_chars is_dec_digit (str_int v) = true ∧
                       py_int (str_int v) 10 = Ok v) (seqZ 0 256)) as Hall
    by compute_done.
  rewrite Forall_forall in Hall. apply Hall, elem_of_seqZ. lia.
Qed.

(** Round trip of the decimal form: three bytes printed with commas
    between them are read back. *)
Theorem parse_border_color_decimal (r g b : Z) :
  0 ≤ r ≤ 255 → 0 ≤ g ≤ 255 → 0 ≤ b ≤ 255 →
  parse_border_color (str_int r +:+ "," +:+ str_int g +:+ "," +:+ str_int b)
  = (r, g, b).
Proof.
  intros Hr Hg Hb.
  destruct (str_int_byte r Hr) as (Hr0 & Hrd & Hri).
  destruct (str_int_byte g Hg) as (Hg0 & Hgd & Hgi).
  destruct (str_int_byte b Hb) as (Hb0 & Hbd & Hbi).
  set (s := str_int r +:+ "," +:+ str_int g +:+ "," +:+ str_int b).
  assert (∃ c t, s = String c t ∧ is_dec_digit c = true) as (c & t & Hs & Hc).
  { subst s. destruct (str_int r) as [|c t]; [done|].
    rewrite all_chars_cons in Hrd. apply andb_true_iff in Hrd as [Hc _].
    by eexists c, _. }
  destruct (dec_digit_facts c Hc) as (Hsp & Hhash & _).
  assert (strip s = s) as Hstrip.
  { unfold strip.
    assert (lstrip_with isspace s = s) as ->
      by (rewrite Hs; cbn [lstrip_with]; by rewrite Hsp).
    destruct (last_char _ _ Hb0 Hbd) as (u & d & Hu & Hd).
    destruct (dec_digit_facts d Hd) as (Hdsp & _).
    subst s. rewrite Hu, <- !string_app_assoc.
    by apply rstrip_with_app_last. }
  assert (startswith s "#" = false) as Hstart.
  { rewrite Hs. unfold startswith. cbn [String.prefix].
    by destruct (ascii_dec "#" c) as [<-|_]. }
  assert (split s "," = [str_int r; str_int g; str_int b]) as Hsplit.
  { subst s. unfold split.
    change ("," +:+ str_int g +:+ "," +:+ str_int b)
      with (String "," (str_int g +:+ String "," (str_int b))).
    rewrite (split_go_app is_dec_digit) by done.
    rewrite (split_go_app is_dec_digit) by done.
    by rewrite (split_go_no_sep is_dec_digit) by done. }
  unfold parse_border_color, parse_border_color_try.
  rewrite Hstrip, Hstart, Hsplit. cbn [map_result].
  by rewrite Hri, Hgi, Hbi.
Qed.

Lemma parse_border_color_decimal_witness :
  parse_border_color "255,128,0" = (255, 128, 0).
Proof. apply (parse_border_color_decimal 255 128 0); lia. Defined.

Lemma lstrip_with_all (f : ascii → bool) (s : string) :
  all_chars f s = true → lstrip_with f s = "".
Proof.
  induction s as [|c s IH]; [done|]. rewrite all_chars_cons.
  intros [Hc Hs]%andb_true_iff. cbn [lstrip_with]. rewrite Hc. by apply IH.
Qed.

Lemma rstrip_with_all (f : ascii → bool) (s : string) :
  all_chars f s = true → rstrip_with f s = "".
Proof.
  induction s as [|c s IH]; [done|]. rewrite all_chars_cons.
  intros [Hc Hs]%andb_true_iff. cbn [rstrip_with]. by rewrite IH, Hc.
Qed.

Lemma lstrip_with_app_l (f : ascii → bool) (pre s : string) :
  all_chars f pre = true → lstrip_with f (pre +:+ s) = lstrip_with f s.
Proof.
  induction pre as [|c pre IH]; [done|]. rewrite all_chars_cons.
  intros [Hc Hs]%andb_true_iff.
  change (String c pre +:+ s) with (String c (pre +:+ s)).
  cbn [lstrip_with]. rewrite Hc. by apply IH.
Qed.

Lemma rstrip_with_app_r (f : ascii → bool) (s post : string) :
  all_chars f post = true → rstrip_with f (s +:+ post) = rstrip_with f s.
Proof.
  intros Hpost. induction s as [|c s IH].
  - change ("" +:+ post) with post. by rewrite rstrip_with_all.
  - change (String c s +:+ post) with (String c (s +:+ post)).
    cbn [rstrip_with]. by rewrite IH.
Qed.

Lemma lstrip_with_app_r (f : ascii → bool) (s post : string) :
  all_chars f post = true →
  lstrip_with f (s +:+ post)
  = match lstrip_with f s with
    | "" => ""
    | t => t +:+ post
    end.
Proof.
  intros Hpost. induction s as [|c s IH].
  - change ("" +:+ post) with post. by rewrite lstrip_with_all.
  - change (String c s +:+ post) with (String c (s +:+ post)).
    cbn [lstrip_with]. by destruct (f c).
Qed.

Lemma strip_spaces_around (pre s post : string) :
  all_chars isspace pre = true → all_chars isspace post = true →
  strip (pre +:+ s +:+ post) = strip s.
Proof.
  intros Hpre Hpost. unfold strip.
  rewrite lstrip_with_app_l, lstrip_with_app_r by done.
  destruct (lstrip_with isspace s) as [|c t] eqn:Hs; [done|].
  by rewrite rstrip_with_app_r.
Qed.

(** White space around a border colour is ignored, whatever the string
    between is. *)
Theorem parse_border_color_ignores_spaces (pre s post : string) :
  all_chars isspace pre = true → all_chars isspace post = true →
  parse_border_color (pre +:+ s +:+ post) = parse_border_color s.
Proof.
  intros Hpre Hpost. unfold parse_border_color, parse_border_color_try.
  by rewrite strip_spaces_around.
Qed.

Lemma parse_border_color_ignores_spaces_witness :
  parse_border_color "  #112233 " = parse_border_color "#112233".
Proof.
  exact (parse_border_color_ignores_spaces "  " "#112233" " " eq_refl eq_refl).
Defined.

(** ** Colours, themes and prompts *)

Lemma known_colors_cases (c : string) :
  c ∈ known_colors →
  c = "wild" ∨ c = "red" ∨ c = "yellow" ∨ c = "green" ∨ c = "blue".
Proof.
  unfold known_colors, colors. rewrite !elem_of_cons, elem_of_nil. tauto.
Qed.

Lemma lookup_three_tables (c : string) :
  (is_Some (COLOR_THEME !! c) ↔ c ∈ known_colors) ∧
  (is_Some (color_hints !! c) ↔ c ∈ known_colors) ∧
  (is_Some (color_table !! c) ↔ c ∈ known_colors).
Proof.
  assert (∀ {V} (l : list (string * V)),
            l.*1 = ["red"; "yellow"; "green"; "blue"; "wild"] →
            NoDup l.*1 →
            is_Some ((list_to_map l : gmap string V) !! c) ↔ c ∈ known_colors)
    as Hkeys.
  { intros V l Hl Hnd. rewrite <- elem_of_dom, dom_list_to_map_L, Hl.
    unfold known_colors, colors.
    rewrite elem_of_list_to_set, !elem_of_cons, elem_of_nil. tauto. }
  repeat split; apply Hkeys; try done; compute_done.
Qed.

(** The three tables keyed by colour have the same keys, the five colours
    of the deck, so no card of the deck meets a missing key; and no two
    colours share a face colour. *)
Theorem color_tables_agree :
  (∀ c : string,
     (is_Some (COLOR_THEME !! c) ↔ c ∈ known_colors) ∧
     (is_Some (color_hints !! c) ↔ c ∈ known_colors) ∧
     (is_Some (color_table !! c) ↔ c ∈ known_colors)) ∧
  (∃ deck : list Card,
     build_uno_deck = Ok deck ∧
     Forall (λ card, color card ∈ known_colors) deck ∧
     Forall (λ c, c ∈ color <$> deck) known_colors) ∧
  (∀ (c1 c2 : string) (rgb : RGB),
     color_rgb c1 = Ok rgb → color_rgb c2 = Ok rgb → c1 = c2).
Proof.
  split; [exact lookup_three_tables|]. split.
  - eexists. split; [vm_compute; reflexivity|]. split; compute_done.
  - intros c1 c2 rgb H1 H2. unfold color_rgb, getitem in *.
    destruct (color_table !! c1) as [x1|] eqn:E1; [|done].
    destruct (color_table !! c2) as [x2|] eqn:E2; [|done].
    simplify_eq.
    assert (c1 ∈ known_colors) as K1 by (apply lookup_three_tables; eauto).
    assert (c2 ∈ known_colors) as K2 by (apply lookup_three_tables; eauto).
    apply known_colors_cases in K1, K2.
    destruct K1 as [->|[->|[->|[->| ->]]]];
      destruct K2 as [->|[->|[->|[->| ->]]]];
      vm_compute in E1, E2; congruence.
Qed.

(** A colour outside the five is a missing key for every table: the
    concept, the prompt and the face colour all raise [KeyError]. *)
Theorem unknown_color_raises (rnd : nat) (card : Card) :
  color card ∉ known_colors →
  concept_for_card rnd card = Raise KeyError ∧
  prompt_for_card rnd card = Raise KeyError ∧
  color_rgb (color card) = Raise KeyError.
Proof.
  intros Hc.
  destruct (lookup_three_tables (color card)) as (Ht & Hh & Hr).
  assert (COLOR_THEME !! color card = None) as Et
    by (apply eq_None_not_Some; by rewrite Ht).
  assert (color_hints !! color card = None) as Eh
    by (apply eq_None_not_Some; by rewrite Hh).
  assert (color_table !! color card = None) as Er
    by (apply eq_None_not_Some; by rewrite Hr).
  assert (color card ≠ "wild") as Hw.
  { intros Hw. apply Hc. rewrite Hw. unfold known_colors. by left. }
  unfold prompt_for_card, concept_for_card, color_rgb, getitem.
  rewrite bool_decide_false by done. by rewrite Et, Eh, Er.
Qed.

Lemma unknown_color_raises_witness :
  prompt_for_card 0 (mkCard "purple" "number" (Some 3) 1) = Raise KeyError.
Proof.
  refine (proj1 (proj2 (unknown_color_raises 0
                          (mkCard "purple" "number" (Some 3) 1) _))).
  vm_compute. intros Hin. 
  repeat (apply elem_of_cons in Hin as [Hin|Hin]; [discriminate Hin|]).
  by apply elem_of_nil in Hin.
Defined.

Lemma random_choice_elem {A} (rnd : nat) (l : list A) :
  l ≠ [] → ∃ x : A, x ∈ l ∧ random_choice rnd l = Ok x.
Proof.
  intros Hl. unfold random_choice. rewrite bool_decide_false by done.
  assert (0 < len l) as Hpos by (unfold len; destruct l; [done|cbn; lia]).
  pose proof (Z.mod_pos_bound (Z.of_nat rnd) _ Hpos) as Hb.
  unfold list_getitem. fold (len l).
  assert ((Z.of_nat rnd `mod` len l <? 0) = false) as E1 by lia.
  assert ((len l <=? Z.of_nat rnd `mod` len l) = false) as E2 by lia.
  rewrite !E1, E2. cbn [orb].
  destruct (lookup_lt_is_Some_2 l (Z.to_nat (Z.of_nat rnd `mod` len l)))
    as [x Hx]; [unfold len in *; lia|].
  exists x. rewrite Hx. split; [|done]. by eapply list_elem_of_lookup_2.
Qed.

Lemma concept_for_card_known (rnd : nat) (card : Card) (title : string)
    (theme_items : list string) :
  COLOR_THEME !! color card = Some (title, theme_items) →
  ∃ concept : string,
    concept ∈ theme_items ∧ concept_for_card rnd card = Ok concept.
Proof.
  intros Et. destruct (decide (color card = "wild")) as [Hw|Hw].
  - unfold concept_for_card, getitem. rewrite bool_decide_true by done.
    rewrite Hw in Et. rewrite Et. cbn [mbind result_bind snd].
    apply random_choice_elem. vm_compute in Et. by simplify_eq.
  - destruct (concept_for_card_colored rnd card _ _ Hw Et) as (s & Hs & Hcc).
    exists s. split; [by eapply list_elem_of_lookup_2|done].
Qed.

Lemma prompt_for_card_ok (rnd : nat) (card : Card) :
  color card ∈ known_colors → ∃ p : string, prompt_for_card rnd card = Ok p.
Proof.
  intros Hc. destruct (lookup_three_tables (color card)) as (Ht & Hh & _).
  destruct (proj2 Ht Hc) as [[title theme_items] Et].
  destruct (proj2 Hh Hc) as [hint Eh].
  destruct (concept_for_card_known rnd card _ _ Et) as (concept & _ & Hcc).
  unfold prompt_for_card, getitem. rewrite Eh. cbn [mbind result_bind].
  rewrite Hcc. by eexists.
Qed.

(** For a card of a known colour, whatever its kind, value and copy
    index and whatever is drawn, the prompt is built: a concept of the
    colour's theme, the fixed style and the colour's accent hint. *)
Theorem prompt_for_card_known_color (rnd : nat) (card : Card) :
  color card ∈ known_colors →
  ∃ (title : string) (theme_items : list string) (concept hint : string),
    COLOR_THEME !! color card = Some (title, theme_items) ∧
    concept ∈ theme_items ∧
    concept_for_card rnd card = Ok concept ∧
    color_hints !! color card = Some hint ∧
    prompt_for_card rnd card
    = Ok (concept +:+ ", " +:+ base_style +:+ ", " +:+ hint).
Proof.
  intros Hc.
  destruct (lookup_three_tables (color card)) as (Ht & Hh & _).
  destruct (proj2 Ht Hc) as [[title theme_items] Et].
  destruct (proj2 Hh Hc) as [hint Eh].
  destruct (concept_for_card_known rnd card _ _ Et)
    as (concept & Hin & Hconcept).
  exists title, theme_items, concept, hint.
  split_and!; try done.
  unfold prompt_for_card, getitem. rewrite Eh. cbn [mbind result_bind].
  by rewrite Hconcept.
Qed.

Lemma prompt_for_card_known_color_witness :
  ∃ concept : string,
    concept_for_card 11 (mkCard "wild" "wild_draw4" None 4) = Ok concept.
Proof.
  destruct (prompt_for_card_known_color 11 (mkCard "wild" "wild_draw4" None 4))
    as (title & items & concept & hint & _ & _ & Hc & _).
  { unfold known_colors. apply elem_of_cons. by left. }
  exists concept. exact Hc.
Defined.

(** A coloured card that is no number card gets the concept of the
    number card whose value is its copy index: in the deck the skip,
    reverse and draw2 cards repeat the concepts of the numbers 1 and 2. *)
Theorem action_concept_is_number_concept (c k : string) (v : option Z)
    (i j : Z) (rnd rnd' : nat) :
  c ∈ colors → k ≠ "number" →
  concept_for_card rnd (mkCard c k v i)
  = concept_for_card rnd' (mkCard c "number" (Some i) j).
Proof.
  intros Hc Hk.
  assert (c ∈ known_colors) as Hkc by (unfold known_colors; by right).
  assert (c ≠ "wild") as Hw.
  { intros ->. unfold colors in Hc. rewrite !elem_of_cons, elem_of_nil in Hc.
    destruct_or!; done. }
  destruct (proj2 (proj1 (lookup_three_tables c)) Hkc) as [[title items] Et].
  destruct (concept_for_card_colored rnd (mkCard c k v i) title items)
    as (s1 & Hs1 & ->); [done..|].
  destruct (concept_for_card_colored rnd' (mkCard c "number" (Some i) j)
              title items) as (s2 & Hs2 & ->); [done..|].
  unfold selector in Hs1, Hs2. cbn [kind value copy_index] in Hs1, Hs2.
  rewrite bool_decide_false in Hs1 by done.
  rewrite bool_decide_true in Hs2 by done. congruence.
Qed.

Lemma action_concept_is_number_concept_witness :
  concept_for_card 0 (mkCard "blue" "reverse" None 2)
  = concept_for_card 5 (mkCard "blue" "number" (Some 2) 1).
Proof.
  apply action_concept_is_number_concept; [|discriminate].
  unfold colors. rewrite !elem_of_cons. auto 10.
Defined.

(** ** Runs of the export loop, ended or aborted *)

Section Runs.
Context `{Platform}.
Local Open Scope list_scope.

Lemma loop_outcome_abort (deck : list Card) (saved : list string) (w w' : World)
    (e : exn) :
  w_files w' = w_files w → w_dirs w' = w_dirs w →
  (length (w_requests w') ≤ length (w_requests w) + 1)%nat →
  (test_mode environ = true → w_requests w' = w_requests w) →
  loop_outcome deck saved w (Raise e, w').
Proof.
  intros Hf Hd Hr Ht. exists 0%nat. cbn [fst snd take fmap list_fmap].
  rewrite Hf, app_nil_r. split_and!; try done; try lia.
Qed.

Lemma loop_outcome_step (card : Card) (deck : list Card) (saved : list string)
    (w w1 : World) (img : Image) (run : result (list string) * World) :
  w_files w1 = w_files w ++ [(out_path card, img)] →
  w_dirs w1 = w_dirs w →
  (length (w_requests w1) ≤ length (w_requests w) + 1)%nat →
  (test_mode environ = true → w_requests w1 = w_requests w) →
  (if generate_first_only environ
   then run = (Ok (append saved (out_path card)), w1)
   else loop_outcome deck (append saved (out_path card)) w1 run) →
  loop_outcome (card :: deck) saved w run.
Proof.
  intros Hf Hd Hr Ht Hrun.
  destruct (generate_first_only environ) eqn:Hfirst.
  - subst run. exists 1%nat. cbn [fst snd take fmap list_fmap length].
    rewrite Hf, fmap_app. cbn [fmap list_fmap fst].
    split_and!; try done; try lia.
    intros paths [= <-]. split; [done|by right].
  - destruct Hrun as (k & Hk & Hfiles & Hdirs & Hreq & Htest & _ & Hok).
    exists (S k). cbn [take fmap list_fmap length].
    rewrite Hfiles, Hf, fmap_app, <- (assoc_L (++)). cbn [fmap list_fmap fst app].
    split_and!; try done; try lia.
    + by rewrite Hdirs.
    + intros Htm. by rewrite Htest, Ht.
    + intros Hfo. congruence.
    + intros paths Hp. destruct (Hok paths Hp) as [-> Hk'].
      unfold append. rewrite <- (assoc_L (++)). split; [done|].
      destruct Hk' as [->|[? _]]; [by left|congruence].
Qed.

Lemma export_loop_outcome (test_bg : option Image) (deck : list Card)
    (saved : list string) (w : World) :
  loop_outcome deck saved w (export_loop test_bg deck saved w).
Proof.
  revert saved w. induction deck as [|card deck IH]; intros saved w.
  - exists 0%nat. cbn [export_loop length take fmap list_fmap].
    unfold io_ret. cbn [fst snd]. rewrite !app_nil_r.
    split_and!; try done; try lia.
    intros paths [= <-]. split; [done|by left].
  - cbn [export_loop]. unfold io_bind at 1.
    destruct (test_mode environ) eqn:Htm.
    + destruct test_bg as [art|]; unfold io_ret, io_raise, io_lift.
      * unfold io_bind, save.
        apply (loop_outcome_step card deck saved w
                 (mkWorld (w_requests w)
                    (w_files w ++ [(out_path card, render_card card art)])
                    (w_dirs w) (w_draws w))
                 (render_card card art));
          cbn [w_files w_dirs w_requests]; [done|done|lia|done|].
        destruct (generate_first_only environ); [done|apply IH].
      * lazy beta iota. apply loop_outcome_abort; [done|done|lia|done].
    + unfold io_bind at 1, prompt_for_card_io.
      set (w0 := if bool_decide (color card = "wild") then _ else w).
      assert (w_files w0 = w_files w ∧ w_dirs w0 = w_dirs w ∧
              w_requests w0 = w_requests w) as (Hf0 & Hd0 & Hr0)
        by (subst w0; by destruct (bool_decide _)).
      destruct (prompt_for_card _ card) as [prompt|e];
        [|apply loop_outcome_abort; [done|done|rewrite Hr0; lia|intros; congruence]].
      unfold gen_image_from_openai.
      destruct (client_bound environ); unfold io_raise, io_lift;
        lazy beta iota;
        [|apply loop_outcome_abort; [done|done|rewrite Hr0; lia|intros; congruence]].
      destruct (service _) as [art|e].
      * unfold io_bind, save. cbn [w_files w_dirs w_requests w_draws].
        apply (loop_outcome_step card deck saved w
                 (mkWorld (w_requests w0 ++ [mkRequest "gpt-image-1" prompt default_size])
                    (w_files w0 ++ [(out_path card, render_card card art)])
                    (w_dirs w0) (w_draws w0))
                 (render_card card art));
          cbn [w_files w_dirs w_requests];
          [by rewrite Hf0|done|rewrite length_app, Hr0; cbn; lia|intros; congruence|].
        destruct (generate_first_only environ); [done|apply IH].
      * apply loop_outcome_abort; cbn [w_files w_dirs w_requests];
          [done|done|rewrite length_app, Hr0; cbn; lia|intros; congruence].
Qed.

End Runs.


(** ** Runs that abort *)

(** In test mode without the background image the run stops with
    [FileNotFoundError] after it made the output directory: no file is
    written and nothing is requested. *)
Theorem missing_test_background `{Platform} :
  test_mode environ = true →
  test_background = None →
  generate_all_cards world0
  = (Raise FileNotFoundError, mkWorld [] [] [OUTPUT_DIR environ] 0).
Proof.
  intros Ht Hbg. destruct build_uno_deck_head as [rest Hdeck].
  unfold generate_all_cards, io_bind, ensure_dir, io_lift, load_test_background.
  by rewrite Hdeck, Ht, Hbg.
Qed.

Lemma missing_test_background_witness :
  (@generate_all_cards no_background_platform world0).1
  = Raise FileNotFoundError.
Proof.
  exact (f_equal fst (@missing_test_background no_background_platform
                        eq_refl eq_refl)).
Defined.

Lemma first_prompt `{Platform} (w : World) :
  ∃ prompt : string,
    prompt_for_card (random_draws (w_draws w)) first_card = Ok prompt ∧
    prompt_for_card_io first_card w = (Ok prompt, w).
Proof.
  destruct (prompt_for_card_ok (random_draws (w_draws w)) first_card)
    as [prompt Hp].
  { unfold known_colors, colors, first_card. cbn [color].
    rewrite !elem_of_cons. auto. }
  exists prompt. split; [done|]. unfold prompt_for_card_io. by rewrite Hp.
Qed.

(** Without test mode and without an API key the name [client] is
    unbound: the run stops with [NameError] at the first card, before
    any request and any file. *)
Theorem no_api_key_aborts `{Platform} :
  test_mode environ = false →
  client_bound environ = false →
  generate_all_cards world0
  = (Raise NameError, mkWorld [] [] [OUTPUT_DIR environ] 0).
Proof.
  intros Ht Hkey. destruct build_uno_deck_head as [rest Hdeck].
  unfold generate_all_cards, io_bind at 1 2 3, ensure_dir, io_lift.
  rewrite Hdeck, Ht. unfold io_ret. cbn [export_loop]. rewrite Ht.
  fold first_card. unfold io_bind.
  cbn [w_requests w_files w_dirs w_draws world0 app].
  destruct (first_prompt (mkWorld [] [] [OUTPUT_DIR environ] 0))
    as (prompt & _ & ->).
  unfold gen_image_from_openai. by rewrite Hkey.
Qed.

Lemma no_api_key_aborts_witness :
  (@generate_all_cards no_key_platform world0).1 = Raise NameError.
Proof.
  exact (f_equal fst (@no_api_key_aborts no_key_platform eq_refl eq_refl)).
Defined.

(** When the image service fails, its error ends the run at the first
    card: one request has been sent, for the first card, and no file is
    written. *)
Theorem failing_service_aborts `{Platform} (e : exn) :
  test_mode environ = false →
  client_bound environ = true →
  (∀ q : Request, service q = Raise e) →
  ∃ prompt : string,
    prompt_for_card (random_draws 0) first_card = Ok prompt ∧
    generate_all_cards world0
    = (Raise e,
       mkWorld [mkRequest "gpt-image-1" prompt "1024x1024"] []
               [OUTPUT_DIR environ] 0).
Proof.
  intros Ht Hkey Hfail. destruct build_uno_deck_head as [rest Hdeck].
  destruct (first_prompt (mkWorld [] [] [OUTPUT_DIR environ] 0))
    as (prompt & Hp & Hio).
  exists prompt. split; [exact Hp|].
  unfold generate_all_cards, io_bind at 1 2 3, ensure_dir, io_lift.
  rewrite Hdeck, Ht. unfold io_ret. cbn [export_loop]. rewrite Ht.
  fold first_card. unfold io_bind.
  cbn [w_requests w_files w_dirs w_draws world0 app]. rewrite Hio.
  unfold gen_image_from_openai. rewrite Hkey, Hfail. done.
Qed.

Lemma failing_service_aborts_witness :
  ∃ prompt : string,
    (@generate_all_cards failing_service_platform world0)
    = (Raise ServiceError,
       @mkWorld failing_service_platform
         [mkRequest "gpt-image-1" prompt "1024x1024"] [] ["uno-cards-out"] 0).
Proof.
  destruct (@failing_service_aborts failing_service_platform ServiceError)
    as (prompt & _ & Hrun); [vm_compute; reflexivity..|by intros|].
  exists prompt. exact Hrun.
Defined.

(** ** A full generative run *)

Lemma export_loop_generative `{Platform} (deck : list Card)
    (saved : list string) (w : World) :
  test_mode environ = false →
  generate_first_only environ = false →
  client_bound environ = true →
  (∀ q : Request, ∃ img : Image, service q = Ok img) →
  Forall (λ card, color card ∈ known_colors) deck →
  ∃ (w' : World) (reqs : list Request),
    export_loop None deck saved w
    = (Ok (saved ++ (out_path <$> deck))%list, w') ∧
    w_draws w' = (w_draws w + length (filter (λ c, color c = "wild") deck))%nat ∧
    (w_files w').*1 = ((w_files w).*1 ++ (out_path <$> deck))%list ∧
    w_requests w' = (w_requests w ++ reqs)%list ∧
    Forall2 request_of reqs deck.
Proof.
  intros Ht Hf Hkey Hserv. revert saved w.
  induction deck as [|card deck IH]; intros saved w Hknown.
  - exists w, []. cbn [export_loop fmap list_fmap filter list_filter length].
    unfold io_ret. rewrite !app_nil_r, Nat.add_0_r.
    by split_and!.
  - apply Forall_cons in Hknown as [Hc Hknown].
    destruct (prompt_for_card_ok (random_draws (w_draws w)) card Hc)
      as [prompt Hp].
    destruct (Hserv (mkRequest "gpt-image-1" prompt default_size))
      as [art Hart].
    pose (w0 := if bool_decide (color card = "wild")
                then mkWorld (w_requests w) (w_files w) (w_dirs w) (S (w_draws w))
                else w).
    pose (w1 := mkWorld
                  (w_requests w0 ++ [mkRequest "gpt-image-1" prompt default_size])%list
                  (w_files w0 ++ [(out_path card, render_card card art)])%list
                  (w_dirs w0) (w_draws w0)).
    assert (export_loop None (card :: deck) saved w
            = export_loop None deck (append saved (out_path card)) w1) as Hstep.
    { cbn [export_loop]. rewrite Ht, Hf.
      unfold io_bind, prompt_for_card_io, gen_image_from_openai, save.
      rewrite Hp, Hkey. lazy beta iota zeta. rewrite Hart. reflexivity. }
    assert (w_files w0 = w_files w ∧ w_requests w0 = w_requests w ∧
            w_draws w0 = (w_draws w
                          + length (filter (λ c, color c = "wild") [card]))%nat)
      as (Hf0 & Hr0 & Hd0).
    { subst w0. rewrite filter_cons, filter_nil.
      destruct (decide (color card = "wild")) as [Hw|Hw].
      - rewrite bool_decide_true by done. cbn. split_and!; first [done|lia].
      - rewrite bool_decide_false by done. cbn. split_and!; first [done|lia]. }
    destruct (IH (append saved (out_path card)) w1 Hknown)
      as (w' & reqs & Hrun & Hdraws & Hfiles & Hreqs & Hall).
    exists w', (mkRequest "gpt-image-1" prompt default_size :: reqs).
    split_and!.
    + rewrite Hstep, Hrun. unfold append. by rewrite <- (assoc_L (++)).
    + rewrite Hdraws. subst w1. cbn [w_draws]. rewrite Hd0.
      rewrite (filter_cons _ card deck), filter_cons, filter_nil.
      destruct (decide (color card = "wild")); cbn [length]; lia.
    + rewrite Hfiles. subst w1. cbn [w_files].
      rewrite fmap_app, Hf0, <- (assoc_L (++)). done.
    + rewrite Hreqs. subst w1. cbn [w_requests].
      by rewrite Hr0, <- (assoc_L (++)).
    + apply Forall2_cons. split; [|done].
      split; [done|]. by exists (random_draws (w_draws w)).
Qed.

(** When the service answers every request, a generative run without the
    early stop sends one request per card, in deck order, each with the
    fixed model and size and a prompt of its card; it draws a random
    number for each of the 8 wild cards and for no other; it writes the
    108 PNGs and returns their paths. *)
Theorem generative_full_run `{Platform} :
  test_mode environ = false →
  generate_first_only environ = false →
  client_bound environ = true →
  (∀ q : Request, ∃ img : Image, service q = Ok img) →
  ∃ (deck : list Card) (w : World),
    build_uno_deck = Ok deck ∧
    generate_all_cards world0 = (Ok (out_path <$> deck), w) ∧
    (w_files w).*1 = out_path <$> deck ∧
    length (w_requests w) = 108%nat ∧
    Forall2 request_of (w_requests w) deck ∧
    w_draws w = 8%nat.
Proof.
  intros Ht Hf Hkey Hserv.
  destruct build_uno_deck as [deck|e] eqn:Hdeck; [|by vm_compute in Hdeck].
  assert (length deck = 108%nat ∧
          length (filter (λ c, color c = "wild") deck) = 8%nat ∧
          Forall (λ card, color card ∈ known_colors) deck)
    as (Hlen & Hwild & Hknown).
  { vm_compute in Hdeck. injection Hdeck as <-. split_and!; compute_done. }
  destruct (export_loop_generative deck []
              (mkWorld [] [] [OUTPUT_DIR environ] 0) Ht Hf Hkey Hserv Hknown)
    as (w & reqs & Hrun & Hdraws & Hfiles & Hreqs & Hall).
  cbn [w_draws w_files w_requests fmap list_fmap app] in *.
  exists deck, w. split; [done|]. split.
  { unfold generate_all_cards, io_bind, ensure_dir, io_lift.
    rewrite Hdeck, Ht. unfold io_ret. exact Hrun. }
  split; [done|]. rewrite Hreqs. split_and!; try done.
  - apply Forall2_length in Hall. congruence.
  - by rewrite Hdraws, Hwild.
Qed.

Lemma generative_full_run_witness :
  ∃ paths : list string,
    (@generate_all_cards generative_platform world0).1 = Ok paths ∧
    length (w_requests (@generate_all_cards generative_platform world0).2)
    = 108%nat.
Proof.
  destruct (@generative_full_run generative_platform)
    as (deck & w & _ & Hrun & _ & Hreq & _);
    [vm_compute; reflexivity..|intros q; by exists []|].
  exists (@out_path generative_platform <$> deck). rewrite Hrun.
  split; [reflexivity|exact Hreq].
Defined.

(** ** Marks, sizes and the crop of the art *)

(** Number cards show their value as text whatever files exist, because
    [number] is no key of the symbol table; each other kind of the deck
    has a symbol file, shown when it exists, and the text [?] takes its
    place when the file is missing. *)
Theorem draw_corners_marks (path_exists : string → bool) :
  (∀ card : Card, kind card = "number" →
     draw_corners_mark path_exists card = Text (str_opt_int (value card))) ∧
  (∀ (card : Card) (path : string),
     SYMBOL_IMAGES !! kind card = Some path →
     draw_corners_mark path_exists card
     = if path_exists path then SymbolImage path else Text "?") ∧
  (∃ deck : list Card,
     build_uno_deck = Ok deck ∧
     Forall (λ card, kind card = "number" ∧ (∃ v, value card = Some v ∧ 0 ≤ v ≤ 9)
                     ∨ is_Some (SYMBOL_IMAGES !! kind card)) deck).
Proof.
  split_and!.
  - intros card Hk. unfold draw_corners_mark, get_symbol_image_path, symbol_for.
    rewrite Hk. by rewrite bool_decide_true by done.
  - intros card path Hp.
    assert (kind card ≠ "number") as Hk
      by (intros Hk; rewrite Hk in Hp; by vm_compute in Hp).
    assert (path ≠ "") as Hne.
    { apply elem_of_list_to_map_2 in Hp.
      rewrite !elem_of_cons, elem_of_nil in Hp.
      destruct_or!; by simplify_eq. }
    unfold draw_corners_mark, get_symbol_image_path, symbol_for. rewrite Hp.
    destruct (path_exists path).
    + by rewrite bool_decide_false by done.
    + by rewrite bool_decide_false by done.
  - eexists. split; [vm_compute; reflexivity|].
    repeat (apply Forall_cons; split;
            [first [left; split; [reflexivity|eexists; split; [reflexivity|lia]]
                   |right; vm_compute; eauto]|]).
    by apply Forall_nil.
Qed.

(** The rendered card keeps the proportions of the card for every
    upscale factor: above one the size is the factor times 825 by 1275,
    and at one, zero or below the card is left at 825 by 1275; 3, the
    default, gives 2475 by 3825. *)
Theorem render_size_aspect (f : Z) :
  (render_size f).1 * CARD_H = (render_size f).2 * CARD_W ∧
  CARD_W ≤ (render_size f).1 ∧ CARD_H ≤ (render_size f).2 ∧
  (f ≤ 1 → render_size f = (825, 1275)) ∧
  (1 < f → render_size f = (825 * f, 1275 * f)) ∧
  (upscale_factor ∅ ≫= λ f0, mret (render_size f0)) = Ok (2475, 3825).
Proof.
  unfold render_size, CARD_W, CARD_H.
  destruct (Z.ltb_spec 1 f); cbn [fst snd]; split_and!; try lia; try done.
Qed.


(** ** Pages and cells *)

Lemma page_sizes_sum (n : nat) : sum_list (page_sizes n) = n.
Proof.
  unfold page_sizes. rewrite sum_list_with_app, sum_list_replicate.
  destruct (Nat.eqb_spec (n mod 9) 0) as [E|E].
  - change (sum_list []) with 0%nat. lia.
  - change (sum_list [(n mod 9)%nat]) with (n mod 9 + 0)%nat. lia.
Qed.

Lemma reshape_lengths {A} (szs : list nat) (l : list A) :
  sum_list szs = length l → length <$> reshape szs l = szs.
Proof.
  revert l. induction szs as [|sz szs IH]; intros l Hl; [done|].
  cbn [reshape fmap list_fmap].
  change (sum_list (sz :: szs)) with (sz + sum_list szs)%nat in Hl. f_equal.
  - rewrite length_take. lia.
  - apply IH. rewrite length_drop. lia.
Qed.

(** The pages hold every image once, in the order given: the pages put
    end to end are the drawings of the images in input order, and the
    pages have nine cells each but for a last page with the rest. *)
Theorem images_to_pdf_partition {R : Type} `{Arith R} (pagesize : R * R)
    (image_paths : list string) (L : Layout R) :
  image_paths ≠ [] →
  layout pagesize.1 pagesize.2 = Ok L →
  let n := length image_paths in
  ∃ doc : list (list (Draw R)),
    images_to_pdf pagesize image_paths = Ok doc ∧
    d_path <$> mjoin doc = image_paths ∧
    mjoin doc = imap (λ i p, draw_card L pagesize.2 (Z.of_nat i) p) image_paths ∧
    length <$> doc
    = (replicate (n / 9) 9%nat
       ++ (if (n mod 9 =? 0)%nat then [] else [(n mod 9)%nat]))%list ∧
    Forall (λ pg, (1 ≤ length pg ≤ 9)%nat) doc.
Proof.
  intros Hne HL n.
  eexists. split; [by apply images_to_pdf_pages|].
  set (ds := drawings L pagesize.2 0 image_paths).
  assert (length ds = n) as Hlen by (subst ds; by rewrite drawings_length).
  assert (sum_list (page_sizes n) = length ds) as Hsum
    by (by rewrite page_sizes_sum).
  fold n. rewrite join_reshape by done.
  pose proof (reshape_lengths (page_sizes n) ds Hsum) as Hlens.
  split_and!.
  - subst ds. unfold drawings. apply list_eq. intros i.
    rewrite list_lookup_fmap, list_lookup_imap.
    by destruct (image_paths !! i).
  - done.
  - exact Hlens.
  - apply Forall_forall. intros pg Hpg.
    assert (length pg ∈ page_sizes n) as Hin
      by (rewrite <- Hlens; by apply list_elem_of_fmap_2).
    unfold page_sizes in Hin. apply elem_of_app in Hin as [Hin|Hin].
    + apply elem_of_replicate in Hin as [-> _]. lia.
    + destruct (Nat.eqb_spec (n mod 9) 0) as [|Hr];
        [by apply elem_of_nil in Hin|].
      apply list_elem_of_singleton in Hin. rewrite Hin. lia.
Qed.

Lemma images_to_pdf_partition_witness :
  ∃ doc : list (list (Draw float)),
    images_to_pdf (@A4 float _) ["a.png"; "b.png"] = Ok doc ∧
    d_path <$> mjoin doc = ["a.png"; "b.png"].
Proof.
  destruct (layout (@A4 float _).1 (@A4 float _).2) as [L|e] eqn:HL;
    [|vm_compute in HL; discriminate].
  destruct (images_to_pdf_partition (@A4 float _) ["a.png"; "b.png"] L
              ltac:(discriminate) HL)
    as (doc & Hdoc & Hpaths & _).
  exists doc. split; [exact Hdoc|exact Hpaths].
Defined.

Section CellsQ.
Local Open Scope Q_scope.

Lemma layout_Q_bounds (pw ph : Q) :
  0 < pw → (7 # 100) * pw < ph →
  ∃ cw ch : Q,
    layout pw ph
    = Ok (mkLayout cw ch ((pw - 3 * cw) / 4) ((ph - 3 * ch) / 4)) ∧
    0 < cw ∧ 0 < ch ∧ cw <= (31 # 100) * pw ∧ 3 * ch <= ph - (7 # 100) * pw.
Proof.
  intros Hpw Hph.
  destruct (candidate_positive pw ph Hpw Hph) as [Hcw0 Hch0].
  destruct (layout_Q pw ph Hpw Hph) as (cw & ch & HL & Hcase).
  pose proof target_aspect_Q as Ht.
  assert (candidate_width pw == (31 # 100) * pw) as Hw0.
  { unfold candidate_width. rewrite available_width_Q. field. }
  assert (3 * candidate_height pw ph == ph - (7 # 100) * pw) as Hh0.
  { unfold candidate_height. rewrite available_height_Q. field. }
  exists cw, ch. split; [exact HL|].
  destruct Hcase as [(Hgt & -> & ->)|(Hle & -> & ->)].
  - assert (candidate_height pw ph * target_aspect < candidate_width pw)
      as Hlt by (rewrite Qmult_comm; by apply Qdiv_lt_inv).
    split_and!; [rewrite Ht; lra|done|lra|lra].
  - assert (candidate_width pw / target_aspect <= candidate_height pw ph)
      as Hle'.
    { apply Qle_shift_div_r; [rewrite Ht; lra|].
      rewrite Qmult_comm. by apply Qdiv_le_inv. }
    split_and!; [done|apply Qlt_shift_div_l; rewrite Ht; lra|lra|lra].
Qed.

End CellsQ.

(** The nine cells lie inside the page and apart from each other: with
    exact arithmetic, for every page that leaves room for a cell, the
    spacing is positive, so each cell keeps a gap to the page border and
    to its neighbours; on the floats of the A4 page the same comparisons
    hold. *)
Theorem cells_inside_page :
  (∀ pw ph : Q, (0 < pw)%Q → ((7 # 100) * pw < ph)%Q →
     ∃ L : Layout Q,
       layout pw ph = Ok L ∧
       (0 < spacing_horizontal L ∧ 0 < spacing_vertical L)%Q ∧
       ∀ k : Z, 0 ≤ k ≤ 2 →
         (0 < cell_x L k ∧ cell_x L k + card_width L < pw ∧
          0 < cell_y L ph k ∧ cell_y L ph k + card_height L < ph ∧
          cell_x L k + card_width L < cell_x L (k + 1) ∧
          cell_y L ph (k + 1) + card_height L < cell_y L ph k)%Q) ∧
  (∃ L : Layout float,
     let pw := (@A4 float _).1 in
     let ph := (@A4 float _).2 in
     layout pw ph = Ok L ∧
     forallb (λ k,
       PrimFloat.ltb 0 (cell_x L k)
       && PrimFloat.ltb (PrimFloat.add (cell_x L k) (card_width L)) pw
       && PrimFloat.ltb 0 (cell_y L ph k)
       && PrimFloat.ltb (PrimFloat.add (cell_y L ph k) (card_height L)) ph)
       [0; 1; 2] = true ∧
     forallb (λ k,
       PrimFloat.ltb (PrimFloat.add (cell_x L k) (card_width L))
                     (cell_x L (k + 1))
       && PrimFloat.ltb (PrimFloat.add (cell_y L ph (k + 1)) (card_height L))
                        (cell_y L ph k))
       [0; 1] = true).
Proof.
  split.
  - intros pw ph Hpw Hph.
    destruct (layout_Q_bounds pw ph Hpw Hph)
      as (cw & ch & HL & Hcw & Hch & Hcw' & Hch').
    eexists. split; [exact HL|].
    cbn [spacing_horizontal spacing_vertical card_width card_height].
    set (sh := ((pw - 3 * cw) / 4)%Q). set (sv := ((ph - 3 * ch) / 4)%Q).
    assert (4 * sh == pw - 3 * cw)%Q as Hsh by (subst sh; field).
    assert (4 * sv == ph - 3 * ch)%Q as Hsv by (subst sv; field).
    split; [split; lra|].
    intros k Hk. unfold cell_x, cell_y.
    cbn [add sub mul of_int Q_arith spacing_horizontal spacing_vertical
         card_width card_height]. fold sh sv.
    assert (k = 0 ∨ k = 1 ∨ k = 2) as [->|[->| ->]] by lia;
      unfold inject_Z;
      repeat match goal with
             | |- context [(?a + ?b)%Z] =>
                 let v := eval vm_compute in (a + b)%Z in
                 change (a + b)%Z with v
             end;
      split_and!; lra.
  - eexists. cbv zeta. split; [vm_compute; reflexivity|].
    split; vm_compute; reflexivity.
Qed.

Lemma cells_inside_page_witness :
  ∃ L : Layout Q,
    layout (@A4 Q _).1 (@A4 Q _).2 = Ok L ∧
    (0 < spacing_horizontal L)%Q.
Proof.
  destruct (proj1 cells_inside_page (@A4 Q _).1 (@A4 Q _).2)
    as (L & HL & [Hsh _] & _); [reflexivity..|].
  exists L. split; [exact HL|exact Hsh].
Defined.

(** ** The whole program *)

Lemma generate_all_cards_returns `{Platform} (paths : list string) (w : World) :
  generate_all_cards world0 = (Ok paths, w) →
  length paths = (if generate_first_only environ then 1 else 108)%nat ∧
  paths = (w_files w).*1.
Proof.
  intros Hrun.
  destruct build_uno_deck as [deck|e] eqn:Hdeck; [|by vm_compute in Hdeck].
  assert (length deck = 108%nat) as Hlen
    by (vm_compute in Hdeck; by injection Hdeck as <-).
  assert (∃ test_bg,
            export_loop test_bg deck [] (mkWorld [] [] [OUTPUT_DIR environ] 0)
            = (Ok paths, w)) as (test_bg & Hloop).
  { revert Hrun. unfold generate_all_cards, io_bind, ensure_dir, io_lift.
    rewrite Hdeck. cbn [w_requests w_files w_dirs w_draws world0 app].
    destruct (test_mode environ).
    - unfold load_test_background.
      destruct test_background as [img|]; unfold io_ret, io_raise, io_lift;
        [|done].
      intros Hrun. by exists (Some img).
    - unfold io_ret. intros Hrun. by exists None. }
  pose proof (export_loop_outcome test_bg deck []
                (mkWorld [] [] [OUTPUT_DIR environ] 0)) as Hout.
  rewrite Hloop in Hout.
  destruct Hout as (k & Hk & Hfiles & _ & _ & _ & Hfirst & Hok).
  cbn [fst snd w_files fmap list_fmap app] in Hfiles, Hok.
  destruct (Hok paths eq_refl) as [-> Hk'].
  split; [|by rewrite Hfiles].
  rewrite length_fmap, length_take.
  destruct Hk' as [->|[-> ->]]; [|lia].
  destruct (generate_first_only environ); [specialize (Hfirst eq_refl)|]; lia.
Qed.

(** [main] makes a document exactly when [generate_all_cards] returns,
    and passes its error on otherwise; the document holds one cell for
    each PNG written, on one page with the early stop and on 12 pages
    without it. *)
Theorem main_document `{Platform} :
  let gen := generate_all_cards world0 in
  let run := main world0 in
  run.2 = gen.2 ∧
  match gen.1 with
  | Raise e => run.1 = Raise e
  | Ok paths =>
      ∃ doc : list (list (Draw float)),
        run.1 = Ok doc ∧
        d_path <$> mjoin doc = paths ∧
        paths = (w_files gen.2).*1 ∧
        length doc = (if generate_first_only environ then 1 else 12)%nat
  end.
Proof.
  intros gen run. subst run. unfold main, io_bind. fold gen.
  destruct gen as [[paths|e] w] eqn:Hgen; [|done].
  cbn [fst snd]. unfold io_lift. cbn [fst snd]. split; [done|].
  destruct (generate_all_cards_returns paths w Hgen) as [Hlen Hfiles].
  assert (paths ≠ []) as Hne
    by (intros ->; destruct (generate_first_only environ); done).
  destruct (layout (@A4 float _).1 (@A4 float _).2) as [L|e] eqn:HL;
    [|vm_compute in HL; discriminate].
  rewrite (images_to_pdf_pages (@A4 float _) paths L Hne HL).
  eexists. split; [reflexivity|].
  set (ds := drawings L (@A4 float _).2 0 paths).
  assert (length ds = length paths) as Hds
    by (subst ds; by rewrite drawings_length).
  split_and!.
  - rewrite join_reshape by (by rewrite page_sizes_sum).
    subst ds. unfold drawings. apply list_eq. intros i.
    rewrite list_lookup_fmap, list_lookup_imap.
    by destruct (paths !! i).
  - exact Hfiles.
  - rewrite length_reshape, page_sizes_length, Hlen.
    by destruct (generate_first_only environ).
Qed.

(** ** Settings and paths *)

Lemma lower_char_inv (a t : ascii) :
  lower_char a = t →
  a ∈ filter (λ c, bool_decide (lower_char c = t)) all_ascii.
Proof.
  intros Ha. apply list_elem_of_filter. split.
  - by apply bool_decide_pack.
  - apply all_ascii_complete.
Qed.

Lemma lower_true (v : string) : lower v = "true" ↔ v ∈ true_spellings.
Proof.
  split.
  - destruct v as [|a [|b [|c [|d [|? ?]]]]]; try done.
    cbn [lower]. intros [= Ha Hb Hc Hd].
    apply lower_char_inv, list_elem_of_In in Ha, Hb, Hc, Hd.
    vm_compute in Ha, Hb, Hc, Hd.
    destruct_or!; try done; subst;
      apply list_elem_of_In; vm_compute; tauto.
  - intros Hv. apply list_elem_of_In in Hv. vm_compute in Hv.
    destruct_or!; try done; by subst.
Qed.

(** The two flags are on exactly for the 16 spellings of [true] in upper
    and lower case: an unset variable, and values such as [1] or [yes],
    leave them off. *)
Theorem flags_need_true (environ : gmap string string) :
  (test_mode environ = true ↔
     ∃ v : string, environ !! "UNO_TEST_MODE" = Some v ∧ v ∈ true_spellings) ∧
  (generate_first_only environ = true ↔
     ∃ v : string,
       environ !! "UNO_GENERATE_FIRST_ONLY" = Some v ∧ v ∈ true_spellings) ∧
  length true_spellings = 16%nat ∧
  Forall (λ v, v ∉ true_spellings) ["1"; "yes"; "on"; "y"; "true "; ""].
Proof.
  assert (∀ key : string,
            bool_decide (lower (getenv environ key "false") = "true") = true
            ↔ ∃ v : string, environ !! key = Some v ∧ v ∈ true_spellings)
    as Hflag.
  { intros key. rewrite bool_decide_eq_true, lower_true. unfold getenv.
    destruct (environ !! key) as [v|].
    - split; [by exists v|by intros (? & [= <-] & ?)].
    - split; [|by intros (? & ? & ?)].
      intros Hv. apply lower_true in Hv. by vm_compute in Hv. }
  split_and!.
  - apply Hflag.
  - apply Hflag.
  - reflexivity.
  - repeat (apply Forall_cons; split;
            [rewrite <- lower_true; by vm_compute|]).
    by apply Forall_nil.
Qed.

Lemma string_app_inj_l (a b1 b2 : string) : a +:+ b1 = a +:+ b2 → b1 = b2.
Proof.
  induction a as [|c a IH]; [done|].
  change (String c (a +:+ b1) = String c (a +:+ b2) → b1 = b2).
  intros [= Ha]. by apply IH.
Qed.

Lemma path_join_inj (a b1 b2 : string) :
  startswith b1 "/" = false → startswith b2 "/" = false →
  path_join a b1 = path_join a b2 → b1 = b2.
Proof.
  intros H1 H2. unfold path_join. rewrite H1, H2.
  destruct (_ || _); intros Hab; apply string_app_inj_l in Hab; [done|].
  by apply (string_app_inj_l "/").
Qed.

(** No two cards of the deck are written to the same path, whatever the
    output directory is, so no PNG of a run overwrites another; and none
    of them is written to the path of the PDF. *)
Theorem out_paths_distinct `{Platform} :
  ∃ deck : list Card,
    build_uno_deck = Ok deck ∧
    NoDup (out_path <$> deck) ∧
    Forall (λ card, out_path card ≠ PDF_PATH environ) deck.
Proof.
  eexists. split; [vm_compute; reflexivity|].
  match goal with |- NoDup (_ <$> ?d) ∧ _ => set (deck := d) end.
  assert (∀ name : string, name ∈ "uno-cards.pdf" :: (filename_for <$> deck) →
            startswith name "/" = false) as Hrel.
  { assert (forallb (λ name, negb (startswith name "/"))
                     ("uno-cards.pdf" :: (filename_for <$> deck)) = true)
      as Hall by (vm_compute; reflexivity).
    intros name Hname. apply list_elem_of_In in Hname.
    rewrite forallb_forall in Hall. specialize (Hall name Hname).
    by apply negb_true_iff in Hall. }
  assert (NoDup ("uno-cards.pdf" :: (filename_for <$> deck))) as Hnd
    by compute_done.
  assert (NoDup (path_join (OUTPUT_DIR environ)
                   <$> "uno-cards.pdf" :: (filename_for <$> deck))) as Hnd'.
  { apply NoDup_fmap_2_strong; [|done].
    intros x y Hx Hy. apply path_join_inj; by apply Hrel. }
  rewrite fmap_cons, <- list_fmap_compose in Hnd'.
  apply NoDup_cons in Hnd' as [Hpdf Hnd']. split; [exact Hnd'|].
  apply Forall_forall. intros card Hcard Heq. apply Hpdf.
  unfold PDF_PATH in Heq. rewrite <- Heq.
  by apply (list_elem_of_fmap_2 (path_join _ ∘ filename_for)).
Qed.
